(** * Wolfram elementary cellular automata: the rule table and the engine

    A shallow embedding of the Python functions [window], [get_rule],
    [generate_pattern] (the list-returning one of the animation notebook and
    the printing one of the text notebook) and [print_pattern], followed by
    the properties of the rule table and of the generated configurations.
    Of the remaining functions, [random_init_state] is embedded with the
    random draws as a parameter, and of [update] the two pure expressions
    that feed numpy.

    Python values are modelled as follows:
    - [int] is [Z] (unbounded);
    - [str] is [string]; a one-character [str] is a string of length one;
    - the rule [dict] is a [gmap string string];
    - a raised exception is the [Raise] constructor of [result];
    - [print] appends a line to an output log. *)

From Stdlib Require Import ZArith Ascii String List Lia.
From stdpp Require Import base gmap strings list.

(** ** Exceptions *)

Inductive exn : Type :=
| KeyError (key : string)
| IndexError.

Inductive result (A : Type) : Type :=
| Ok (a : A)
| Raise (e : exn).

Arguments Ok {A} a.
Arguments Raise {A} e.

#[global] Instance result_ret : MRet result := λ A a, Ok a.

#[global] Instance result_bind : MBind result := λ A B k r,
  match r with
  | Ok a => k a
  | Raise e => Raise e
  end.

(** ** Python built-ins used by the notebooks *)

Module Py.

(** [range(k)]: empty when [k] is not positive. *)
Definition range (k : Z) : list nat := seq 0 (Z.to_nat k).

(** [len(s)] as a Python integer. *)
Definition len (s : string) : Z := Z.of_nat (String.length s).

(** [s[i]] for a non-negative index: [IndexError] out of range. *)
Definition index (s : string) (i : nat) : result string :=
  match String.get i s with
  | Some c => Ok (String c "")
  | None => Raise IndexError
  end.

(** [s[i:j]] for non-negative bounds: clipped to the string, never fails. *)
Definition slice (s : string) (i j : nat) : string :=
  String.substring i (j - i) s.

(** [s[::-1]]. *)
Definition reversed (s : string) : string := String.rev s.

(** [d[k]]: [KeyError] when the key is absent. *)
Definition getitem (d : gmap string string) (k : string) : result string :=
  match d !! k with
  | Some v => Ok v
  | None => Raise (KeyError k)
  end.

(** [''.join(parts)]. *)
Definition join (parts : list string) : string := String.concat "" parts.

(** [s.replace(c, t)] for a one-character pattern [c]. *)
Fixpoint replace (c : ascii) (t : string) (s : string) : string :=
  match s with
  | EmptyString => EmptyString
  | String a s' =>
      if Ascii.eqb a c then t +:+ replace c t s'
      else String a (replace c t s')
  end.

(** [c * k]: the character repeated. *)
Fixpoint repeat (c : ascii) (k : nat) : string :=
  match k with
  | O => EmptyString
  | S k' => String c (repeat c k')
  end.

(** The binary digits of a positive number, most significant first. *)
Fixpoint bin_digits (p : positive) : string :=
  match p with
  | xH => "1"
  | xO p' => bin_digits p' +:+ "0"
  | xI p' => bin_digits p' +:+ "1"
  end.

(** Left padding of a digit string with zeros up to [width]. *)
Definition zfill (width : nat) (digits : string) : string :=
  repeat "0"%char (width - String.length digits) +:+ digits.

(** [f"{n:0{width}b}"]: binary digits, zero-padded; the sign of a negative
    number comes first and counts in the width. *)
Definition format_b (width : nat) (n : Z) : string :=
  match n with
  | Z0 => zfill width "0"
  | Zpos p => zfill width (bin_digits p)
  | Zneg p => "-" +:+ zfill (width - 1) (bin_digits p)
  end.

(** A generator expression [f(x) for x in xs] consumed to the end: the
    first exception aborts it. *)
Fixpoint genexpr {A B : Type} (f : A → result B) (xs : list A)
  : result (list B) :=
  match xs with
  | [] => Ok []
  | x :: xs' =>
      y ← f x;
      ys ← genexpr f xs';
      Ok (y :: ys)
  end.

(** A dict comprehension [{key(i): val(i) for i in xs}], filling [d]. *)
Fixpoint dictcomp {A : Type} (key : A → string) (val : A → result string)
    (xs : list A) (d : gmap string string) : result (gmap string string) :=
  match xs with
  | [] => Ok d
  | i :: xs' =>
      v ← val i;
      dictcomp key val xs' (<[key i := v]> d)
  end.

End Py.

(** ** The helper functions *)

(** [window(iterable, stride=3)], run to exhaustion. *)
Definition window (iterable : string) (stride : nat) : list string :=
  map (λ i, Py.slice iterable i (i + stride))
      (Py.range (Py.len iterable - Z.of_nat stride + 1)).

(** [get_rule(n)]. *)
Definition get_rule (n : Z) : result (gmap string string) :=
  let rule_number := Py.reversed (Py.format_b 8 n) in
  Py.dictcomp (λ i, Py.format_b 3 (Z.of_nat i))
              (λ i, Py.index rule_number i)
              (Py.range 8) ∅.

(** The rule argument of the calls [generate_pattern(..., get_rule(n), ...)]
    of the notebooks; [get_rule] raising would abort the call. *)
Definition the_rule (n : Z) : gmap string string :=
  match get_rule n with
  | Ok rule => rule
  | Raise _ => ∅
  end.

(** The list in [interesting_rule_number]. *)
Definition interesting_rules : list Z :=
  [30; 45; 54; 60; 62; 90; 901; 94; 110; 122; 126; 150; 182; 225]%Z.

(** [print_pattern(state)]: the line it prints, appended to the log. The
    black square U+25A0 is its three UTF-8 bytes. *)
Definition glyph : string :=
  String (ascii_of_nat 226) (String (ascii_of_nat 150)
    (String (ascii_of_nat 160) "")).

Definition formatted_state (state : string) : string :=
  Py.replace "0"%char " " (Py.replace "1"%char glyph state).

Definition print_pattern (state : string) (out : list string) : list string :=
  out ++ [formatted_state state].

(** ** The engine *)

(** The body of the loop of [generate_pattern]: the next state. *)
Definition next_state (rule : gmap string string) (state : string)
  : result string :=
  let patterns := window state 3 in
  cells ← Py.genexpr (Py.getitem rule) patterns;
  Ok ("0" +:+ Py.join cells +:+ "0").

(** The loop of the animation notebook's [generate_pattern]. *)
Fixpoint generate_loop (rule : gmap string string) (gens : list nat)
    (state : string) (states : list string) : result (list string) :=
  match gens with
  | [] => Ok states
  | _ :: gens' =>
      state' ← next_state rule state;
      generate_loop rule gens' state' (states ++ [state'])
  end.

(** [generate_pattern(state, rule, max_gen)] of the animation notebook. *)
Definition generate_pattern (state : string) (rule : gmap string string)
    (max_gen : Z) : result (list string) :=
  generate_loop rule (Py.range max_gen) state [state].

(** The loop of the text notebook's [generate_pattern]: what was printed and
    how the call ended. *)
Fixpoint text_loop (rule : gmap string string) (gens : list nat)
    (state : string) (out : list string) : list string * result unit :=
  match gens with
  | [] => (print_pattern state out, Ok ())
  | _ :: gens' =>
      let out := print_pattern state out in
      match next_state rule state with
      | Ok state' => text_loop rule gens' state' out
      | Raise e => (out, Raise e)
      end
  end.

(** [generate_pattern(init_state, rule, max_gen)] of the text notebook. *)
Definition generate_pattern_text (init_state : string)
    (rule : gmap string string) (max_gen : Z) : list string * result unit :=
  text_loop rule (Py.range max_gen) init_state [].


(** ** The vocabulary of the specification *)

(** The symbol of a cell: off is ["0"], on is ["1"]. *)
Definition cell (b : bool) : ascii := if b then "1"%char else "0"%char.

(** A one-symbol Python string. *)
Definition cell_str (b : bool) : string := String (cell b) "".

(** A three-cell neighborhood, first symbol leftmost. *)
Definition neighborhood (a b c : bool) : string :=
  String (cell a) (String (cell b) (String (cell c) "")).

(** The neighborhood read as a binary number, first symbol most
    significant. *)
Definition neighborhood_index (a b c : bool) : Z :=
  (4 * Z.b2z a + 2 * Z.b2z b + Z.b2z c)%Z.

Definition neighborhoods : list string :=
  [neighborhood false false false; neighborhood false false true;
   neighborhood false true false; neighborhood false true true;
   neighborhood true false false; neighborhood true false true;
   neighborhood true true false; neighborhood true true true].

Definition is_cell (c : ascii) : bool :=
  Ascii.eqb c "0" || Ascii.eqb c "1".

(** A configuration: every symbol is off or on. *)
Fixpoint is_config (s : string) : bool :=
  match s with
  | EmptyString => true
  | String c s' => is_cell c && is_config s'
  end.

(** A rule table: each of the eight neighborhoods is mapped to one symbol. *)
Definition is_rule_table (rule : gmap string string) : bool :=
  forallb (λ pat,
    match rule !! pat with
    | Some v => String.eqb v "0" || String.eqb v "1"
    | None => false
    end) neighborhoods.

(** The table that [get_rule] builds when position [i] of the reversed digit
    string reads [g i]. *)
Definition table_of (g : nat → string) : gmap string string :=
  foldl (λ d i, <[Py.format_b 3 (Z.of_nat i) := g i]> d) ∅ (Py.range 8).

(** ** The other functions of the notebooks *)

(** [random_init_state(length)]: [np.random.choice(['0', '1'])] is called
    once per position; [choice k] tells whether call [k] draws the second
    element of the list. *)
Definition random_init_state (choice : nat → bool) (length : Z) : string :=
  Py.join (map (λ k, if choice k then "1" else "0") (Py.range length)).

(** [int(cell)] for a one-character string of the model: a decimal digit is
    its value, [None] stands for the [ValueError] of any other character. *)
Definition int_of_cell (cell : ascii) : option Z :=
  let code := nat_of_ascii cell in
  if (48 <=? code) && (code <=? 57) then Some (Z.of_nat (code - 48))
  else None.

(** The nested list [[int(cell) for cell in row] for row in
    states[:frame+1]] that [update] hands to [np.array]. *)
Definition update_rows (frame : nat) (states : list string)
  : option (list (list Z)) :=
  mapM (λ row, mapM int_of_cell (list_ascii_of_string row))
       (take (frame + 1) states).

(** The shape [(len(states) - frame - 1, len(states[0]))] that [update]
    hands to [np.full]; [None] stands for the [IndexError] of [states[0]]
    on an empty list. *)
Definition update_padding_shape (frame : nat) (states : list string)
  : option (Z * Z) :=
  match states with
  | [] => None
  | first :: _ => Some ((Z.of_nat (length states) - Z.of_nat frame - 1)%Z,
                        Py.len first)
  end.

(** ** Strings *)

Section strings.
Implicit Types s t : string.
Implicit Types c : ascii.

Lemma app_String c s t : String c s +:+ t = String c (s +:+ t).
Proof. reflexivity. Qed.

Lemma app_empty_l s : "" +:+ s = s.
Proof. reflexivity. Qed.

Lemma app_empty_r s : s +:+ "" = s.
Proof. induction s as [|c s IH]; [done|]. by rewrite app_String, IH. Qed.

Lemma app_assoc_str s t u : (s +:+ t) +:+ u = s +:+ t +:+ u.
Proof.
  induction s as [|c s IH]; [done|]. by rewrite !app_String, IH.
Qed.

Lemma length_app_str s t :
  String.length (s +:+ t) = String.length s + String.length t.
Proof.
  induction s as [|c s IH]; [done|]. rewrite app_String. simpl. by rewrite IH.
Qed.

Lemma rev_app_spec s t : String.rev_app s t = String.rev s +:+ t.
Proof.
  unfold String.rev. revert t.
  induction s as [|c s IH]; intros t; simpl; [done|].
  rewrite (IH (String c "")), IH, app_assoc_str. done.
Qed.

Lemma rev_String c s : String.rev (String c s) = String.rev s +:+ String c "".
Proof. unfold String.rev at 1. simpl. apply rev_app_spec. Qed.

Lemma rev_app_distr s t : String.rev (s +:+ t) = String.rev t +:+ String.rev s.
Proof.
  induction s as [|c s IH].
  - by rewrite app_empty_l, app_empty_r.
  - by rewrite app_String, !rev_String, IH, app_assoc_str.
Qed.

Lemma length_rev_str s : String.length (String.rev s) = String.length s.
Proof.
  induction s as [|c s IH]; [done|].
  rewrite rev_String, length_app_str, IH. simpl. lia.
Qed.

Lemma length_repeat c k : String.length (Py.repeat c k) = k.
Proof. induction k; simpl; congruence. Qed.

Lemma repeat_snoc c k : Py.repeat c k +:+ String c "" = String c (Py.repeat c k).
Proof.
  induction k as [|k IH]; [done|]. simpl. by rewrite app_String, IH.
Qed.

Lemma rev_repeat c k : String.rev (Py.repeat c k) = Py.repeat c k.
Proof.
  induction k as [|k IH]; [done|]. simpl.
  by rewrite rev_String, IH, repeat_snoc.
Qed.

Lemma get_app_l s t i :
  i < String.length s → String.get i (s +:+ t) = String.get i s.
Proof.
  revert i. induction s as [|c s IH]; intros i Hi; simpl in Hi; [lia|].
  rewrite app_String. destruct i as [|i]; simpl; [done|]. apply IH. lia.
Qed.

Lemma get_app_r s t i :
  String.get (String.length s + i) (s +:+ t) = String.get i t.
Proof. induction s as [|c s IH]; [done|]. rewrite app_String. simpl. done. Qed.

Lemma get_repeat c k i : i < k → String.get i (Py.repeat c k) = Some c.
Proof.
  revert i. induction k as [|k IH]; intros i Hi; [lia|].
  destruct i as [|i]; simpl; [done|]. apply IH. lia.
Qed.

End strings.

(** ** Binary formatting *)

Section binary.
Implicit Types p : positive.
Implicit Types i k w : nat.

Lemma testbit_xO p i :
  Z.testbit (Z.pos p~0) (Z.of_nat (S i)) = Z.testbit (Z.pos p) (Z.of_nat i).
Proof.
  rewrite Nat2Z.inj_succ, Pos2Z.inj_xO. apply Z.testbit_even_succ. lia.
Qed.

Lemma testbit_xI p i :
  Z.testbit (Z.pos p~1) (Z.of_nat (S i)) = Z.testbit (Z.pos p) (Z.of_nat i).
Proof.
  rewrite Nat2Z.inj_succ, Pos2Z.inj_xI. apply Z.testbit_odd_succ. lia.
Qed.

Lemma testbit_xH i : Z.testbit 1 (Z.of_nat (S i)) = false.
Proof.
  rewrite Nat2Z.inj_succ. change 1%Z with (2 * 0 + 1)%Z.
  rewrite Z.testbit_odd_succ by lia. apply Z.bits_0.
Qed.

(** Reversed, the digit string lists the bits from the least significant
    one. *)
Lemma get_rev_bin_digits p i :
  i < String.length (Py.bin_digits p) →
  String.get i (String.rev (Py.bin_digits p))
  = Some (cell (Z.testbit (Z.pos p) (Z.of_nat i))).
Proof.
  revert i. induction p as [p IH|p IH|]; intros i; simpl;
    rewrite ?rev_app_distr, ?length_app_str; simpl; intros Hi.
  - destruct i as [|i]; [done|]. rewrite testbit_xI. simpl. apply IH. lia.
  - destruct i as [|i]; [done|]. rewrite testbit_xO. simpl. apply IH. lia.
  - destruct i as [|i]; [done|]. lia.
Qed.

(** Beyond the digit string every bit is zero. *)
Lemma testbit_ge_bin_digits p i :
  String.length (Py.bin_digits p) ≤ i →
  Z.testbit (Z.pos p) (Z.of_nat i) = false.
Proof.
  revert i. induction p as [p IH|p IH|]; intros i; simpl;
    rewrite ?length_app_str; simpl; intros Hi;
    (destruct i as [|i]; [lia|]).
  - rewrite testbit_xI. apply IH. lia.
  - rewrite testbit_xO. apply IH. lia.
  - apply testbit_xH.
Qed.

(** The digit string has at most [k] digits exactly below [2^k]. *)
Lemma length_bin_digits_le p k :
  String.length (Py.bin_digits p) ≤ k ↔ (Z.pos p < 2 ^ Z.of_nat k)%Z.
Proof.
  revert k. induction p as [p IH|p IH|]; intros k; simpl;
    rewrite ?length_app_str; simpl.
  - destruct k as [|k]; [simpl; lia|].
    rewrite Nat2Z.inj_succ, Z.pow_succ_r by lia.
    specialize (IH k). lia.
  - destruct k as [|k]; [simpl; lia|].
    rewrite Nat2Z.inj_succ, Z.pow_succ_r by lia.
    specialize (IH k). lia.
  - destruct k as [|k]; [simpl; lia|].
    rewrite Nat2Z.inj_succ, Z.pow_succ_r by lia.
    assert (0 < 2 ^ Z.of_nat k)%Z by (apply Z.pow_pos_nonneg; lia). lia.
Qed.

Lemma rev_zfill w (d : string) :
  String.rev (Py.zfill w d)
  = String.rev d +:+ Py.repeat "0" (w - String.length d).
Proof. unfold Py.zfill. by rewrite rev_app_distr, rev_repeat. Qed.

(** The padded and reversed digit string, followed by anything: position
    [i] within the padded width holds bit [i]. *)
Lemma get_rev_zfill w p i (t : string) :
  i < w `max` String.length (Py.bin_digits p) →
  String.get i (String.rev (Py.zfill w (Py.bin_digits p)) +:+ t)
  = Some (cell (Z.testbit (Z.pos p) (Z.of_nat i))).
Proof.
  intros Hi. rewrite rev_zfill, app_assoc_str.
  set (d := Py.bin_digits p) in *.
  pose proof (length_rev_str d) as Hlen.
  destruct (decide (i < String.length d)) as [Hlt|Hge].
  - rewrite get_app_l by lia. by apply get_rev_bin_digits.
  - replace i with (String.length (String.rev d) + (i - String.length d))
      at 1 by lia.
    rewrite get_app_r, get_app_l by (rewrite length_repeat; lia).
    rewrite get_repeat by lia.
    unfold d in *. by rewrite testbit_ge_bin_digits by lia.
Qed.

(** Just after the padded width comes what follows the digits. *)
Lemma get_rev_zfill_end w p (t : string) :
  String.get (w `max` String.length (Py.bin_digits p))
    (String.rev (Py.zfill w (Py.bin_digits p)) +:+ t)
  = String.get 0 t.
Proof.
  rewrite rev_zfill, app_assoc_str.
  set (d := Py.bin_digits p) in *.
  pose proof (length_rev_str d) as Hlen.
  replace (w `max` String.length d)
    with (String.length (String.rev d)
          + (String.length (Py.repeat "0" (w - String.length d)) + 0))
    by (rewrite length_repeat; lia).
  by rewrite !get_app_r.
Qed.
End binary.

(** ** The rule table *)

Section rule_table.
Implicit Types n : Z.
Implicit Types i : nat.

Lemma dictcomp_ok {A} (key : A → string) (val : A → result string)
    (g : A → string) (xs : list A) (d : gmap string string) :
  (∀ x, x ∈ xs → val x = Ok (g x)) →
  Py.dictcomp key val xs d = Ok (foldl (λ d x, <[key x := g x]> d) d xs).
Proof.
  revert d. induction xs as [|x xs IH]; intros d Hval; simpl; [done|].
  rewrite (Hval x) by left. simpl. apply IH.
  intros y Hy. apply Hval. by right.
Qed.

Lemma elem_of_range_8 i : i ∈ Py.range 8 → i < 8.
Proof.
  unfold Py.range. rewrite list_elem_of_In, in_seq. simpl. lia.
Qed.

(** [get_rule] succeeds as soon as the reversed digit string has eight
    readable positions. *)
Lemma get_rule_ok n (g : nat → string) :
  (∀ i, i < 8 → Py.index (Py.reversed (Py.format_b 8 n)) i = Ok (g i)) →
  get_rule n = Ok (table_of g).
Proof.
  intros Hg. unfold get_rule, table_of.
  apply dictcomp_ok. intros i Hi. apply Hg. by apply elem_of_range_8.
Qed.

Lemma table_of_ext (g g' : nat → string) :
  (∀ i, i < 8 → g i = g' i) → table_of g = table_of g'.
Proof.
  intros Hg. unfold table_of.
  change (Py.range 8) with [0; 1; 2; 3; 4; 5; 6; 7]. simpl.
  by rewrite !Hg by lia.
Qed.

Lemma table_of_lookup (g : nat → string) (a b c : bool) :
  table_of g !! neighborhood a b c
  = Some (g (Z.to_nat (neighborhood_index a b c))).
Proof. destruct a, b, c; vm_compute; reflexivity. Qed.

Lemma table_of_dom (g : nat → string) :
  dom (table_of g) = list_to_set neighborhoods.
Proof. vm_compute. reflexivity. Qed.

Lemma neighborhood_index_bounds (a b c : bool) :
  (0 ≤ neighborhood_index a b c < 8)%Z.
Proof. destruct a, b, c; unfold neighborhood_index; simpl; lia. Qed.

(** For a non-negative number, position [i] of the reversed digit string
    is bit [i]. *)
Lemma rule_number_nonneg n i :
  (0 ≤ n)%Z → i < 8 →
  Py.index (Py.reversed (Py.format_b 8 n)) i
  = Ok (cell_str (Z.testbit n (Z.of_nat i))).
Proof.
  intros Hn Hi. destruct n as [|p|p]; [| |lia].
  - rewrite Z.bits_0.
    do 8 (destruct i as [|i]; [reflexivity|]). lia.
  - unfold Py.index, Py.reversed, Py.format_b.
    rewrite <- (app_empty_r (String.rev _)).
    rewrite get_rev_zfill by lia. done.
Qed.

(** For a negative number the sign ends the reversed string: it is read
    at position 7 when the magnitude has at most seven digits. *)
Lemma rule_number_neg (p : positive) i :
  i < 8 →
  Py.index (Py.reversed (Py.format_b 8 (Z.neg p))) i
  = Ok (if decide (i = 7 ∧ (Z.pos p < 128)%Z) then "-"
        else cell_str (Z.testbit (Z.pos p) (Z.of_nat i))).
Proof.
  intros Hi. unfold Py.index, Py.reversed, Py.format_b.
  change (8 - 1) with 7. rewrite rev_app_distr.
  change (String.rev "-") with "-".
  pose proof (length_bin_digits_le p 7) as Hlen.
  change (2 ^ Z.of_nat 7)%Z with 128%Z in Hlen.
  case_decide as Hc.
  - destruct Hc as [-> Hp].
    replace 7 with (7 `max` String.length (Py.bin_digits p)) at 1 by lia.
    by rewrite get_rev_zfill_end.
  - rewrite get_rev_zfill by lia. done.
Qed.

Lemma get_rule_nonneg n :
  (0 ≤ n)%Z →
  get_rule n = Ok (table_of (λ i, cell_str (Z.testbit n (Z.of_nat i)))).
Proof. intros Hn. apply get_rule_ok. intros i Hi. by apply rule_number_nonneg. Qed.

Lemma get_rule_neg (p : positive) :
  get_rule (Z.neg p)
  = Ok (table_of (λ i, if decide (i = 7 ∧ (Z.pos p < 128)%Z) then "-"
                       else cell_str (Z.testbit (Z.pos p) (Z.of_nat i)))).
Proof. apply get_rule_ok. intros i Hi. by apply rule_number_neg. Qed.
End rule_table.

(** ** Windows and one transition step *)

Section step.
Implicit Types rule : gmap string string.
Implicit Types state s : string.

Lemma window_eq s :
  window s 3 = map (λ i, String.substring i 3 s) (seq 0 (String.length s - 2)).
Proof.
  unfold window, Py.range, Py.len, Py.slice.
  replace (Z.to_nat (Z.of_nat (String.length s) - Z.of_nat 3 + 1))
    with (String.length s - 2) by lia.
  apply map_ext. intros i. f_equal. lia.
Qed.

Lemma window_length s : length (window s 3) = String.length s - 2.
Proof. by rewrite window_eq, length_map, length_seq. Qed.

(** The windows of a string, from its first symbol on. *)
Lemma window_String c s :
  window (String c s) 3
  = if decide (2 ≤ String.length s)
    then String.substring 0 3 (String c s) :: window s 3
    else [].
Proof.
  rewrite !window_eq. case_decide as Hlen.
  - replace (String.length (String c s) - 2)
      with (S (String.length s - 2)) by (simpl; lia).
    rewrite <- cons_seq, <- seq_shift, map_cons, map_map. done.
  - replace (String.length (String c s) - 2) with 0 by (simpl; lia). done.
Qed.

Lemma substring_3 (x y z : ascii) s :
  String.substring 0 3 (String x (String y (String z s)))
  = String x (String y (String z "")).
Proof. by destruct s. Qed.

Lemma window_short s : String.length s < 3 → window s 3 = [].
Proof.
  intros Hlen. rewrite window_eq.
  by replace (String.length s - 2) with 0 by lia.
Qed.

Lemma is_cell_cell c : is_cell c = true → ∃ b, c = cell b.
Proof.
  unfold is_cell. intros [H|H]%orb_true_iff; apply Ascii.eqb_eq in H.
  - by exists false.
  - by exists true.
Qed.

Lemma neighborhood_in (a b c : bool) : In (neighborhood a b c) neighborhoods.
Proof. destruct a, b, c; simpl; tauto. Qed.

Lemma is_rule_table_lookup rule (a b c : bool) :
  is_rule_table rule = true →
  ∃ d, rule !! neighborhood a b c = Some (cell_str d).
Proof.
  unfold is_rule_table. rewrite forallb_forall. intros Hall.
  specialize (Hall _ (neighborhood_in a b c)).
  destruct (rule !! neighborhood a b c) as [v|]; [|done].
  apply orb_true_iff in Hall as [H|H]; apply String.eqb_eq in H; subst v.
  - by exists false.
  - by exists true.
Qed.

Lemma join_cons (x : string) (xs : list string) :
  Py.join (x :: xs) = x +:+ Py.join xs.
Proof.
  unfold Py.join. destruct xs as [|y ys]; simpl; [by rewrite app_empty_r|done].
Qed.

Lemma getitem_Some rule (k v : string) :
  rule !! k = Some v → Py.getitem rule k = Ok v.
Proof. unfold Py.getitem. by intros ->. Qed.

Lemma genexpr_cons {A B} (f : A → result B) (x : A) (xs : list A) :
  Py.genexpr f (x :: xs) = (y ← f x; ys ← Py.genexpr f xs; Ok (y :: ys)).
Proof. reflexivity. Qed.

(** Over a configuration, a rule table answers every window with one
    symbol. *)
Lemma genexpr_window rule state :
  is_rule_table rule = true → is_config state = true →
  ∃ bs : list bool,
    Py.genexpr (Py.getitem rule) (window state 3) = Ok (cell_str <$> bs)
    ∧ length bs = String.length state - 2.
Proof.
  intros Hrule. induction state as [|x s IH]; intros Hcfg.
  - by exists [].
  - rewrite window_String. simpl in Hcfg.
    apply andb_true_iff in Hcfg as [Hx Hs].
    case_decide as Hlen; [|exists []; split; [done|simpl; lia]].
    destruct (IH Hs) as (bs & Hbs & Hlenbs).
    destruct s as [|y [|z s]]; simpl in Hlen; [lia..|].
    simpl in Hs.
    apply andb_true_iff in Hs as [Hy [Hz _]%andb_true_iff].
    apply is_cell_cell in Hx as [a ->], Hy as [b ->], Hz as [c ->].
    destruct (is_rule_table_lookup rule a b c Hrule) as [d Hd].
    exists (d :: bs). split; [|simpl in *; lia].
    rewrite substring_3. fold (neighborhood a b c).
    rewrite genexpr_cons, (getitem_Some _ _ _ Hd), Hbs. done.
Qed.

Lemma join_cells (bs : list bool) :
  String.length (Py.join (cell_str <$> bs)) = length bs
  ∧ is_config (Py.join (cell_str <$> bs)) = true.
Proof.
  induction bs as [|b bs [IHlen IHcfg]]; [done|].
  rewrite fmap_cons, join_cons. unfold cell_str at 1 3. rewrite app_String, app_empty_l.
  simpl. rewrite IHlen, IHcfg. by destruct b.
Qed.

Lemma is_config_app s t :
  is_config (s +:+ t) = is_config s && is_config t.
Proof.
  induction s as [|c s IH]; [done|].
  rewrite app_String. simpl. by rewrite IH, andb_assoc.
Qed.

(** One step on a configuration under a rule table: it succeeds with an
    interior of one symbol per window, padded by an off-cell at both
    ends. *)
Lemma next_state_config rule state :
  is_rule_table rule = true → is_config state = true →
  ∃ interior, next_state rule state = Ok ("0" +:+ interior +:+ "0")
    ∧ is_config interior = true
    ∧ String.length interior = String.length state - 2.
Proof.
  intros Hrule Hcfg.
  destruct (genexpr_window rule state Hrule Hcfg) as (bs & Hbs & Hlen).
  destruct (join_cells bs) as [Hjlen Hjcfg].
  exists (Py.join (cell_str <$> bs)).
  split; [unfold next_state; rewrite Hbs; reflexivity|].
  split; [done|lia].
Qed.

Lemma length_padded (interior : string) :
  String.length ("0" +:+ interior +:+ "0") = String.length interior + 2.
Proof. rewrite !length_app_str. simpl. lia. Qed.

Lemma is_config_padded (interior : string) :
  is_config ("0" +:+ interior +:+ "0") = is_config interior.
Proof. rewrite !is_config_app. simpl. by rewrite andb_true_r. Qed.

(** Whatever the rule, a state the step produces is padded with an
    off-cell at both ends. *)
Lemma next_state_padded rule state state' :
  next_state rule state = Ok state' →
  ∃ interior, state' = "0" +:+ interior +:+ "0".
Proof.
  unfold next_state. destruct (Py.genexpr _ _) as [cells|e]; simpl; [|done].
  intros [= <-]. by eexists.
Qed.

Lemma padded_ends (interior : string) :
  let s := "0" +:+ interior +:+ "0" in
  String.get 0 s = Some "0"%char
  ∧ String.get (String.length s - 1) s = Some "0"%char
  ∧ 2 ≤ String.length s.
Proof.
  intros s. subst s. rewrite app_String, app_empty_l.
  split; [done|]. cbn [String.length].
  rewrite length_app_str. cbn [String.length].
  replace (S (String.length interior + 1) - 1)
    with (S (String.length interior + 0)) by lia.
  cbn [String.get]. rewrite get_app_r. split; [done|lia].
Qed.

(** Below three cells there is no window, and the step pads nothing. *)
Lemma next_state_short rule state :
  String.length state < 3 → next_state rule state = Ok "00".
Proof. intros Hlen. unfold next_state. by rewrite window_short. Qed.
End step.

(** ** The generation loop *)

Section loop.
Implicit Types rule : gmap string string.
Implicit Types state : string.
Implicit Types states rest : list string.

(** What a finished loop returns: the states it was given, then one state
    per generation, each the successor of some state. *)
Lemma generate_loop_inv rule gens state states res :
  generate_loop rule gens state states = Ok res →
  ∃ rest, res = states ++ rest
    ∧ length rest = length gens
    ∧ Forall (λ s, ∃ prev, next_state rule prev = Ok s) rest.
Proof.
  revert state states. induction gens as [|g gens IH]; intros state states.
  - intros [= <-]. exists []. by rewrite app_nil_r.
  - cbn [generate_loop].
    destruct (next_state rule state) as [state'|e] eqn:Hstep; [|done].
    intros (rest & -> & Hlen & Hall)%IH.
    exists (state' :: rest). rewrite <- app_assoc. repeat split.
    + simpl. by rewrite Hlen.
    + constructor; [by exists state|done].
Qed.

Section invariant.
Variable rule : gmap string string.
Variables P Q : string → Prop.
Hypothesis step_ok : ∀ s, P s → ∃ s', next_state rule s = Ok s' ∧ Q s'.
Hypothesis Q_P : ∀ s, Q s → P s.

(** While the step succeeds on the states satisfying [P] and establishes
    [Q], which gives [P] back, the loop runs to its end and every state
    it adds satisfies [Q]. *)
Lemma generate_loop_invariant gens state states :
  P state →
  ∃ rest, generate_loop rule gens state states = Ok (states ++ rest)
    ∧ length rest = length gens
    ∧ Forall Q rest.
Proof using step_ok Q_P.
  revert state states.
  induction gens as [|g gens IH]; intros state states HP.
  - exists []. by rewrite app_nil_r.
  - destruct (step_ok state HP) as (state' & Hstep & HQ).
    destruct (IH state' (states ++ [state']) (Q_P _ HQ))
      as (rest & Hloop & Hlen & Hall).
    exists (state' :: rest). cbn [generate_loop]. rewrite Hstep. simpl.
    rewrite Hloop, <- app_assoc. repeat split.
    + simpl. by rewrite Hlen.
    + by constructor.
Qed.
End invariant.

Lemma range_length (k : Z) : length (Py.range k) = Z.to_nat k.
Proof. unfold Py.range. apply length_seq. Qed.

(** The text notebook prints the formatted states of the list the
    animation notebook returns. *)
Lemma text_loop_generate_loop rule gens state states res out :
  generate_loop rule gens state states = Ok res →
  text_loop rule gens state out
  = (out ++ (formatted_state <$> state :: drop (length states) res), Ok ()).
Proof.
  revert state states out. induction gens as [|g gens IH];
    intros state states out.
  - intros [= <-]. by rewrite drop_all.
  - cbn [generate_loop text_loop].
    destruct (next_state rule state) as [state'|e] eqn:Hstep; [|done].
    simpl. intros Hloop. rewrite (IH _ _ _ Hloop).
    apply generate_loop_inv in Hloop as (rest & -> & _ & _).
    rewrite drop_app_length.
    rewrite <- (app_assoc states [state'] rest), drop_app_length.
    unfold print_pattern. by rewrite <- app_assoc.
Qed.

Lemma generate_pattern_text_spec rule state max_gen res :
  generate_pattern state rule max_gen = Ok res →
  generate_pattern_text state rule max_gen = (formatted_state <$> res, Ok ()).
Proof.
  unfold generate_pattern, generate_pattern_text. intros Hloop.
  rewrite (text_loop_generate_loop _ _ _ _ _ _ Hloop).
  apply generate_loop_inv in Hloop as (rest & -> & _ & _). done.
Qed.

(** On a configuration and under a rule table the engine returns the
    initial configuration followed by one configuration per generation,
    each as long as the initial one (two cells when that one is
    shorter). *)
Lemma generate_pattern_config rule state max_gen :
  is_rule_table rule = true → is_config state = true →
  ∃ rest, generate_pattern state rule max_gen = Ok (state :: rest)
    ∧ length rest = Z.to_nat max_gen
    ∧ Forall (λ s, is_config s = true
                   ∧ String.length s = String.length state `max` 2) rest.
Proof.
  intros Hrule Hcfg. unfold generate_pattern.
  rewrite <- (range_length max_gen).
  apply (generate_loop_invariant rule
    (λ s, is_config s = true
          ∧ (s = state ∨ String.length s = String.length state `max` 2))
    (λ s, is_config s = true
          ∧ String.length s = String.length state `max` 2)).
  - intros s [Hs Hlen].
    destruct (next_state_config rule s Hrule Hs) as (interior & -> & Hi & Hli).
    eexists. split; [done|].
    rewrite is_config_padded, length_padded, Hli.
    split; [done|]. destruct Hlen as [->|Hlen]; lia.
  - intros s [Hs Hlen]. eauto.
  - eauto.
Qed.

(** Whatever the rule dict and the state, a call that returns for a
    generation count [N ≥ 0] returns [N + 1] states, the first being the
    initial one. *)
Lemma generate_pattern_returns rule state max_gen res :
  (0 ≤ max_gen)%Z →
  generate_pattern state rule max_gen = Ok res →
  Z.of_nat (length res) = (max_gen + 1)%Z ∧ res !! 0 = Some state.
Proof.
  intros Hgen (rest & -> & Hlen & _)%generate_loop_inv.
  rewrite range_length in Hlen. split; [simpl; lia|done].
Qed.

(** A state too short for a window stays at two off-cells for ever. *)
Lemma generate_loop_short rule gens state states :
  String.length state < 3 →
  generate_loop rule gens state states
  = Ok (states ++ replicate (length gens) "00").
Proof.
  revert state states. induction gens as [|g gens IH]; intros state states Hlen.
  - simpl. by rewrite app_nil_r.
  - cbn [generate_loop]. rewrite next_state_short by done. simpl.
    rewrite IH by (simpl; lia). by rewrite <- app_assoc.
Qed.
End loop.

(** ** Properties of the rule table *)

(** C2. For every rule number [n] in [0, 255], [get_rule n] returns a table
    whose keys are exactly the eight neighborhoods, each mapped to one
    symbol, off or on; the successor of the neighborhood of index [i] (read
    as a binary number, first symbol most significant) is bit [i] of [n],
    counted from the least significant bit. *)
Theorem get_rule_bits (n : Z) :
  (0 ≤ n ≤ 255)%Z →
  ∃ rule, get_rule n = Ok rule
    ∧ dom rule = list_to_set neighborhoods
    ∧ is_rule_table rule = true
    ∧ ∀ a b c : bool,
        rule !! neighborhood a b c
        = Some (cell_str (Z.testbit n (neighborhood_index a b c))).
Proof.
  intros [Hn _]. eexists. split; [by apply get_rule_nonneg|].
  split; [apply table_of_dom|].
  assert (∀ a b c : bool,
    table_of (λ i, cell_str (Z.testbit n (Z.of_nat i))) !! neighborhood a b c
    = Some (cell_str (Z.testbit n (neighborhood_index a b c)))) as Hlookup.
  { intros a b c. rewrite table_of_lookup, Z2Nat.id; [done|].
    apply neighborhood_index_bounds. }
  split; [|done].
  unfold is_rule_table. apply forallb_forall. intros pat Hpat.
  assert (∃ a b c, pat = neighborhood a b c) as (a & b & c & ->).
  { simpl in Hpat.
    destruct Hpat as [<-|[<-|[<-|[<-|[<-|[<-|[<-|[<-|[]]]]]]]]]; eauto. }
  rewrite Hlookup. by destruct (Z.testbit _ _).
Qed.

Lemma get_rule_bits_witness :
  ∃ rule, get_rule 110 = Ok rule
    ∧ dom rule = list_to_set neighborhoods
    ∧ is_rule_table rule = true
    ∧ ∀ a b c : bool,
        rule !! neighborhood a b c
        = Some (cell_str (Z.testbit 110 (neighborhood_index a b c))).
Proof. apply (get_rule_bits 110). lia. Defined.

(** C5. The table of rule 90 is exactly
    111→0, 110→1, 101→0, 100→1, 011→1, 010→0, 001→1, 000→0. *)
Theorem get_rule_90 :
  get_rule 90
  = Ok (list_to_map
          [("111", "0"); ("110", "1"); ("101", "0"); ("100", "1");
           ("011", "1"); ("010", "0"); ("001", "1"); ("000", "0")])
  ∧ the_rule 90 !! "111" = Some "0" ∧ the_rule 90 !! "110" = Some "1"
  ∧ the_rule 90 !! "101" = Some "0" ∧ the_rule 90 !! "100" = Some "1"
  ∧ the_rule 90 !! "011" = Some "1" ∧ the_rule 90 !! "010" = Some "0"
  ∧ the_rule 90 !! "001" = Some "1" ∧ the_rule 90 !! "000" = Some "0".
Proof. repeat split; vm_compute; reflexivity. Qed.

(** C10. For every non-negative [n], [get_rule n] is [get_rule (n mod 256)]:
    a rule number from 256 on, such as the 901 of the interesting rules, is
    not rejected. [get_rule] returns a table for it, the same table it
    returns for [n mod 256], whose entries are the low eight bits of [n]. *)
Theorem get_rule_mod_256 (n : Z) :
  (0 ≤ n)%Z →
  ∃ rule, get_rule n = Ok rule
    ∧ get_rule (n mod 256) = Ok rule
    ∧ dom rule = list_to_set neighborhoods
    ∧ ∀ a b c : bool,
        rule !! neighborhood a b c
        = Some (cell_str (Z.testbit (n mod 256) (neighborhood_index a b c))).
Proof.
  intros Hn.
  assert (table_of (λ i, cell_str (Z.testbit n (Z.of_nat i)))
          = table_of (λ i, cell_str (Z.testbit (n mod 256) (Z.of_nat i))))
    as Htable.
  { apply table_of_ext. intros i Hi.
    change 256%Z with (2 ^ 8)%Z. by rewrite Z.mod_pow2_bits_low by lia. }
  exists (table_of (λ i, cell_str (Z.testbit (n mod 256) (Z.of_nat i)))).
  split; [by rewrite get_rule_nonneg, Htable|].
  split; [apply get_rule_nonneg; apply Z.mod_pos_bound; lia|].
  split; [apply table_of_dom|].
  intros a b c. rewrite table_of_lookup, Z2Nat.id; [done|].
  apply neighborhood_index_bounds.
Qed.

Lemma get_rule_mod_256_witness :
  In 901%Z interesting_rules
  ∧ ∃ rule, get_rule 901 = Ok rule
      ∧ get_rule (901 mod 256) = Ok rule
      ∧ dom rule = list_to_set neighborhoods
      ∧ ∀ a b c : bool,
          rule !! neighborhood a b c
          = Some (cell_str (Z.testbit (901 mod 256)
                              (neighborhood_index a b c))).
Proof.
  split; [simpl; tauto|]. apply (get_rule_mod_256 901). lia.
Defined.

(** C6, as the code has it. A rule number outside [0, 255] is not rejected:
    [get_rule] raises nothing and returns a table over all eight
    neighborhoods. The successor of the neighborhood of index [i] is bit
    [i] of the magnitude of [n], so that the bits above the eighth are
    dropped; only for [-128 < n < 0] the neighborhood 111 is mapped to the
    sign character instead. *)
Theorem get_rule_out_of_range (n : Z) :
  (n < 0 ∨ 255 < n)%Z →
  ∃ rule, get_rule n = Ok rule
    ∧ dom rule = list_to_set neighborhoods
    ∧ ∀ a b c : bool,
        rule !! neighborhood a b c
        = Some (if decide (-128 < n < 0 ∧ neighborhood_index a b c = 7)%Z
                then "-"
                else cell_str (Z.testbit (Z.abs n) (neighborhood_index a b c))).
Proof.
  intros Hn. destruct n as [|p|p]; [lia| |].
  - eexists. split; [by apply get_rule_nonneg|].
    split; [apply table_of_dom|]. intros a b c.
    rewrite table_of_lookup, Z2Nat.id by apply neighborhood_index_bounds.
    rewrite decide_False by lia. done.
  - eexists. split; [apply get_rule_neg|].
    split; [apply table_of_dom|]. intros a b c.
    pose proof (neighborhood_index_bounds a b c) as Hi.
    rewrite table_of_lookup, Z2Nat.id by lia. simpl Z.abs.
    f_equal. apply decide_ext. lia.
Qed.

Lemma get_rule_out_of_range_witness :
  ∃ rule, get_rule 901 = Ok rule
    ∧ dom rule = list_to_set neighborhoods
    ∧ ∀ a b c : bool,
        rule !! neighborhood a b c
        = Some (if decide (-128 < 901 < 0 ∧ neighborhood_index a b c = 7)%Z
                then "-"
                else cell_str (Z.testbit (Z.abs 901)
                                 (neighborhood_index a b c))).
Proof. apply (get_rule_out_of_range 901). right. lia. Defined.

(** C6 fails as stated: 901, 256 and -1 are outside [0, 255], and
    [get_rule] returns a full table for each of them. *)
Lemma get_rule_out_of_range_counterexample :
  get_rule 901
  = Ok (list_to_map
          [("111", "1"); ("110", "0"); ("101", "0"); ("100", "0");
           ("011", "0"); ("010", "1"); ("001", "0"); ("000", "1")])
  ∧ get_rule 256
    = Ok (list_to_map
            [("111", "0"); ("110", "0"); ("101", "0"); ("100", "0");
             ("011", "0"); ("010", "0"); ("001", "0"); ("000", "0")])
  ∧ get_rule (-1)
    = Ok (list_to_map
            [("111", "-"); ("110", "0"); ("101", "0"); ("100", "0");
             ("011", "0"); ("010", "0"); ("001", "0"); ("000", "1")]).
Proof. repeat split; vm_compute; reflexivity. Qed.

(** ** Properties of the engine *)

(** C4. One transition step on a configuration of length [L ≥ 3] under a
    rule table: the windows are [L - 2], each is mapped to one symbol of the
    interior, an off-cell is put before and after it, and the next
    configuration has length [L] again. *)
Theorem next_state_length (rule : gmap string string) (state : string) :
  is_rule_table rule = true → is_config state = true →
  3 ≤ String.length state →
  ∃ interior,
    next_state rule state = Ok ("0" +:+ interior +:+ "0")
    ∧ length (window state 3) = String.length state - 2
    ∧ String.length interior = String.length state - 2
    ∧ String.length ("0" +:+ interior +:+ "0") = String.length state.
Proof.
  intros Hrule Hcfg Hlen.
  destruct (next_state_config rule state Hrule Hcfg) as (interior & Hstep & _ & Hi).
  exists interior. rewrite window_length, length_padded. repeat split; [done|done|lia].
Qed.

Lemma next_state_length_witness :
  ∃ interior,
    next_state (the_rule 90) "00100" = Ok ("0" +:+ interior +:+ "0")
    ∧ length (window "00100" 3) = String.length "00100" - 2
    ∧ String.length interior = String.length "00100" - 2
    ∧ String.length ("0" +:+ interior +:+ "0") = String.length "00100".
Proof.
  apply (next_state_length (the_rule 90) "00100");
    [reflexivity | reflexivity | simpl; lia].
Defined.

(** C3. For every configuration, rule table and generation count [N ≥ 0],
    [generate_pattern] returns a sequence of exactly [N + 1] configurations
    whose first element is the initial configuration as supplied; for
    [N = 0] the sequence holds that configuration only. *)
Theorem generate_pattern_sequence (state : string)
    (rule : gmap string string) (max_gen : Z) :
  is_config state = true → is_rule_table rule = true → (0 ≤ max_gen)%Z →
  ∃ states, generate_pattern state rule max_gen = Ok states
    ∧ Z.of_nat (length states) = (max_gen + 1)%Z
    ∧ states !! 0 = Some state
    ∧ Forall (λ s, is_config s = true) states
    ∧ (max_gen = 0%Z → states = [state]).
Proof.
  intros Hcfg Hrule Hgen.
  destruct (generate_pattern_config rule state max_gen Hrule Hcfg)
    as (rest & Hrun & Hlen & Hall).
  exists (state :: rest). split; [done|]. split; [simpl; lia|].
  split; [done|]. split.
  - constructor; [done|]. eapply Forall_impl; [done|]. by intros s [? _].
  - intros ->. by destruct rest.
Qed.

Lemma generate_pattern_sequence_witness :
  ∃ states, generate_pattern "00100" (the_rule 90) 2 = Ok states
    ∧ Z.of_nat (length states) = (2 + 1)%Z
    ∧ states !! 0 = Some "00100"
    ∧ Forall (λ s, is_config s = true) states
    ∧ (2%Z = 0%Z → states = ["00100"]).
Proof.
  apply (generate_pattern_sequence "00100" (the_rule 90) 2);
    [reflexivity | reflexivity | lia].
Defined.

(** C1, as the code has it. For every configuration of length at least 3,
    every rule table and every generation count [N ≥ 0], each element [k]
    of the sequence returned by [generate_pattern] has the length of the
    initial configuration: the lattice does not grow. A configuration of
    length 300 run for 200 generations ends at length 300. *)
Theorem generate_pattern_length (state : string)
    (rule : gmap string string) (max_gen : Z) (k : nat) :
  is_config state = true → 3 ≤ String.length state →
  is_rule_table rule = true → (0 ≤ max_gen)%Z → (Z.of_nat k ≤ max_gen)%Z →
  ∃ states c, generate_pattern state rule max_gen = Ok states
    ∧ states !! k = Some c
    ∧ String.length c = String.length state.
Proof.
  intros Hcfg Hlen Hrule Hgen Hk.
  destruct (generate_pattern_config rule state max_gen Hrule Hcfg)
    as (rest & Hrun & Hlenr & Hall).
  destruct k as [|k]; [by exists (state :: rest), state|].
  destruct (lookup_lt_is_Some_2 rest k) as [c Hc]; [lia|].
  exists (state :: rest), c. repeat split; [done..|].
  rewrite Forall_lookup in Hall. destruct (Hall k c Hc) as [_ ->]. lia.
Qed.

Lemma generate_pattern_length_witness :
  let state := Py.join (replicate 60 "01101") in
  String.length state = 300
  ∧ ∃ states c, generate_pattern state (the_rule 30) 200 = Ok states
      ∧ states !! 200 = Some c
      ∧ String.length c = String.length state.
Proof.
  split; [reflexivity|].
  apply (generate_pattern_length _ (the_rule 30) 200 200);
    [reflexivity | vm_compute; lia | reflexivity | lia | lia].
Defined.

(** C1 fails as stated: under rule 90 the configuration 00100 is followed
    by 01010 and 00000, of length 5 and not 7 or 9; and a configuration of
    length 300 run for 200 generations ends at length 300, not 700. *)
Lemma generate_pattern_length_counterexample :
  (∃ states c,
      is_config "00100" = true
      ∧ generate_pattern "00100" (the_rule 90) 2 = Ok states
      ∧ states = ["00100"; "01010"; "00000"]
      ∧ states !! 2 = Some c
      ∧ String.length c ≠ String.length "00100" + 2 * 2)
  ∧ (∃ states c,
      String.length (Py.join (replicate 60 "01101")) = 300
      ∧ generate_pattern (Py.join (replicate 60 "01101")) (the_rule 30) 200
        = Ok states
      ∧ states !! 200 = Some c
      ∧ String.length c = 300
      ∧ String.length c ≠ 700).
Proof.
  split.
  - exists ["00100"; "01010"; "00000"], "00000".
    split; [reflexivity|].
    split; [vm_compute; reflexivity|]. repeat split. simpl. lia.
  - destruct (generate_pattern_config (the_rule 30)
                (Py.join (replicate 60 "01101")) 200)
      as (rest & Hrun & Hlen & Hall); [reflexivity..|].
    destruct (lookup_lt_is_Some_2 rest 199) as [c Hc]; [lia|].
    rewrite Forall_lookup in Hall. destruct (Hall 199 c Hc) as [_ Hc300].
    change (String.length c = 300) in Hc300.
    exists (Py.join (replicate 60 "01101") :: rest), c.
    repeat split; [done..|lia].
Qed.

(** C7, as the code has it. A configuration shorter than 3 is not
    rejected: it has no window, so the step raises nothing, whatever the
    rule, and yields the two off-cells of the padding; this configuration
    is appended to the sequence, and so is it at every later step. *)
Theorem next_state_too_short (rule : gmap string string) (state : string) :
  String.length state < 3 →
  window state 3 = []
  ∧ next_state rule state = Ok "00"
  ∧ ∀ max_gen : Z,
      generate_pattern state rule max_gen
      = Ok (state :: replicate (Z.to_nat max_gen) "00").
Proof.
  intros Hlen. split; [by apply window_short|].
  split; [by apply next_state_short|]. intros max_gen.
  unfold generate_pattern. rewrite generate_loop_short by done.
  by rewrite range_length.
Qed.

Lemma next_state_too_short_witness :
  window "01" 3 = []
  ∧ next_state (the_rule 90) "01" = Ok "00"
  ∧ ∀ max_gen : Z,
      generate_pattern "01" (the_rule 90) max_gen
      = Ok ("01" :: replicate (Z.to_nat max_gen) "00").
Proof. apply (next_state_too_short (the_rule 90) "01"). simpl. lia. Defined.

(** C7 fails as stated: the configurations 01 and the empty one are shorter
    than 3, and the step on them succeeds; the result is appended. *)
Lemma next_state_too_short_counterexample :
  next_state (the_rule 90) "01" = Ok "00"
  ∧ next_state (the_rule 90) "" = Ok "00"
  ∧ generate_pattern "01" (the_rule 90) 2 = Ok ["01"; "00"; "00"].
Proof. repeat split; vm_compute; reflexivity. Qed.

(** C8, as the code has it. A negative generation count is not rejected:
    the loop over an empty range does nothing, and [generate_pattern]
    returns the sequence that holds the initial state only, whatever the
    state and the rule. *)
Theorem generate_pattern_negative (state : string)
    (rule : gmap string string) (max_gen : Z) :
  (max_gen < 0)%Z → generate_pattern state rule max_gen = Ok [state].
Proof.
  intros Hneg. unfold generate_pattern, Py.range.
  by replace (Z.to_nat max_gen) with 0 by lia.
Qed.

Lemma generate_pattern_negative_witness :
  generate_pattern "00100" (the_rule 90) (-1) = Ok ["00100"].
Proof. apply (generate_pattern_negative "00100" (the_rule 90) (-1)). lia. Defined.

(** C8 fails as stated: the generation counts -1 and -200 are accepted. *)
Lemma generate_pattern_negative_counterexample :
  generate_pattern "00100" (the_rule 90) (-1) = Ok ["00100"]
  ∧ generate_pattern "00100" (the_rule 90) (-200) = Ok ["00100"].
Proof. split; vm_compute; reflexivity. Qed.

(** C9. Whatever the rule and the initial state, every configuration [k ≥ 1]
    of the sequence [generate_pattern] returns begins and ends with an
    off-cell: each of them comes out of a step, which pads its interior on
    both sides. The text notebook prints the same configurations, line [k]
    being configuration [k] formatted. *)
Theorem generate_pattern_boundary_off (state : string)
    (rule : gmap string string) (max_gen : Z)
    (states : list string) (k : nat) (c : string) :
  generate_pattern state rule max_gen = Ok states →
  1 ≤ k → states !! k = Some c →
  String.get 0 c = Some "0"%char
  ∧ String.get (String.length c - 1) c = Some "0"%char
  ∧ 2 ≤ String.length c
  ∧ (∃ prev, next_state rule prev = Ok c)
  ∧ generate_pattern_text state rule max_gen
    = (formatted_state <$> states, Ok ()).
Proof.
  intros Hrun Hk Hc.
  pose proof (generate_pattern_text_spec _ _ _ _ Hrun) as Htext.
  apply generate_loop_inv in Hrun as (rest & -> & _ & Hall).
  destruct k as [|k]; [lia|]. simpl in Hc.
  rewrite Forall_lookup in Hall. destruct (Hall k c Hc) as [prev Hstep].
  destruct (next_state_padded _ _ _ Hstep) as [interior ->].
  destruct (padded_ends interior) as (H0 & Hlast & Hlen).
  repeat split; [done..|by exists prev|done].
Qed.

Lemma generate_pattern_boundary_off_witness :
  String.get 0 "01010" = Some "0"%char
  ∧ String.get (String.length "01010" - 1) "01010" = Some "0"%char
  ∧ 2 ≤ String.length "01010"
  ∧ (∃ prev, next_state (the_rule 90) prev = Ok "01010")
  ∧ generate_pattern_text "00100" (the_rule 90) 2
    = (formatted_state <$> ["00100"; "01010"; "00000"], Ok ()).
Proof.
  apply (generate_pattern_boundary_off "00100" (the_rule 90) 2
           ["00100"; "01010"; "00000"] 1 "01010");
    [vm_compute; reflexivity | lia | reflexivity].
Defined.

(** ** Windows of any stride *)

Section windows.
Implicit Types s : string.
Implicit Types i j k : nat.

Lemma length_substring i k s :
  i + k ≤ String.length s → String.length (String.substring i k s) = k.
Proof.
  revert i k. induction s as [|c s IH]; intros i k Hik; simpl in Hik.
  - by replace i with 0 by lia; replace k with 0 by lia.
  - destruct i as [|i]; [destruct k as [|k]; [done|]|]; simpl.
    + rewrite IH; [done|lia].
    + apply IH. lia.
Qed.

Lemma window_lookup s k i w :
  window s k !! i = Some w ↔
  i + k ≤ String.length s ∧ w = String.substring i k s.
Proof.
  unfold window, Py.range, Py.len, Py.slice.
  replace (Z.to_nat (Z.of_nat (String.length s) - Z.of_nat k + 1))
    with (S (String.length s) - k) by lia.
  rewrite list_lookup_fmap, fmap_Some. setoid_rewrite lookup_seq.
  split.
  - intros (i' & [Heq Hi] & ->). simpl in Heq. subst i'.
    replace (i + k - i) with k by lia. split; [lia|done].
  - intros [Hi ->]. exists i. repeat split; [lia|].
    by replace (i + k - i) with k by lia.
Qed.
End windows.

(** X1. [window] over any stride: there are [len + 1 - stride] windows
    (none when the stride exceeds [len + 1]); window [i] exists only where
    it fits into the string, has exactly [stride] symbols, and its symbol
    [j] is symbol [i + j] of the string. *)
Theorem window_spec (s : string) (stride : nat) :
  length (window s stride) = S (String.length s) - stride
  ∧ ∀ i w, window s stride !! i = Some w →
      i + stride ≤ String.length s
      ∧ String.length w = stride
      ∧ ∀ j, j < stride → String.get j w = String.get (i + j) s.
Proof.
  split.
  - unfold window, Py.range, Py.len. rewrite length_map, length_seq. lia.
  - intros i w [Hi ->]%window_lookup. split; [done|].
    split; [by apply length_substring|].
    intros j Hj. rewrite substring_correct1 by done. f_equal. lia.
Qed.

(** ** The step in full: lookups, failures and cells *)

Section lookups.
Implicit Types rule : gmap string string.
Implicit Types xs : list string.

Lemma getitem_None rule (k : string) :
  rule !! k = None → Py.getitem rule k = Raise (KeyError k).
Proof. unfold Py.getitem. by intros ->. Qed.

(** The generator of the step succeeds exactly when every window is a key,
    with the values in the order of the windows. *)
Lemma genexpr_getitem_Ok rule xs (vs : list string) :
  Py.genexpr (Py.getitem rule) xs = Ok vs
  ↔ Forall2 (λ x v, rule !! x = Some v) xs vs.
Proof.
  revert vs. induction xs as [|x xs IH]; intros vs.
  - simpl. split.
    + intros [= <-]. constructor.
    + by intros ->%Forall2_nil_inv_l.
  - rewrite genexpr_cons. split.
    + destruct (rule !! x) as [v|] eqn:Hx;
        [rewrite (getitem_Some _ _ _ Hx)|by rewrite (getitem_None _ _ Hx)].
      simpl. destruct (Py.genexpr _ xs) as [vs'|e] eqn:Hxs; [|done].
      simpl. intros [= <-]. constructor; [done|]. by apply IH.
    + intros (v & vs' & Hx & Hxs & ->)%Forall2_cons_inv_l.
      apply IH in Hxs. by rewrite (getitem_Some _ _ _ Hx), Hxs.
Qed.

(** It fails exactly with the [KeyError] of the leftmost window that is not
    a key. *)
Lemma genexpr_getitem_Raise rule xs (e : exn) :
  Py.genexpr (Py.getitem rule) xs = Raise e
  ↔ ∃ i w, xs !! i = Some w ∧ rule !! w = None ∧ e = KeyError w
      ∧ ∀ j w', j < i → xs !! j = Some w' → is_Some (rule !! w').
Proof.
  induction xs as [|x xs IH].
  - simpl. split; [done|]. by intros (i & w & Hi & _).
  - rewrite genexpr_cons. split.
    + destruct (rule !! x) as [v|] eqn:Hx.
      * rewrite (getitem_Some _ _ _ Hx). simpl.
        destruct (Py.genexpr _ xs) as [vs'|e'] eqn:Hxs; [done|].
        simpl. intros [= ->].
        destruct (proj1 IH eq_refl) as (i & w & Hi & Hw & He & Hbefore).
        exists (S i), w. repeat split; [done..|].
        intros [|j] w' Hj Hw'; simpl in Hw'.
        -- injection Hw' as <-. by rewrite Hx.
        -- apply (Hbefore j); [lia|done].
      * rewrite (getitem_None _ _ Hx). simpl. intros [= <-].
        exists 0, x. repeat split; [done..|]. intros j w' Hj. lia.
    + intros (i & w & Hi & Hw & -> & Hbefore). destruct i as [|i].
      * simpl in Hi. injection Hi as ->. by rewrite (getitem_None _ _ Hw).
      * destruct (Hbefore 0 x) as [v Hx]; [lia|done|].
        rewrite (getitem_Some _ _ _ Hx). simpl.
        assert (Py.genexpr (Py.getitem rule) xs = Raise (KeyError w)) as ->; [|done].
        apply IH. exists i, w. repeat split; [done..|].
        intros j w' Hj Hw'. apply (Hbefore (S j)); [lia|done].
Qed.

(** Joining one-character strings lines them up one per position. *)
Lemma join_singletons (vs : list string) :
  Forall (λ v, String.length v = 1) vs →
  String.length (Py.join vs) = length vs
  ∧ ∀ j v, vs !! j = Some v → Py.index (Py.join vs) j = Ok v.
Proof.
  induction vs as [|v vs IH]; intros Hall; [done|].
  apply Forall_cons in Hall as [Hv Hvs]. destruct (IH Hvs) as [IHlen IHget].
  destruct v as [|c [|c' v]]; simpl in Hv; [lia| |lia].
  rewrite join_cons, app_String, app_empty_l. split; [simpl; by rewrite IHlen|].
  intros [|j] v Hj; simpl in Hj.
  - by injection Hj as <-.
  - specialize (IHget j v Hj). unfold Py.index in *. simpl. done.
Qed.

Lemma next_state_Ok rule state state' :
  next_state rule state = Ok state'
  ↔ ∃ cells, Forall2 (λ w v, rule !! w = Some v) (window state 3) cells
      ∧ state' = "0" +:+ Py.join cells +:+ "0".
Proof.
  unfold next_state. split.
  - destruct (Py.genexpr _ _) as [cells|e] eqn:Hcells; simpl; [|done].
    intros [= <-]. exists cells. split; [by apply genexpr_getitem_Ok|done].
  - intros (cells & Hcells%genexpr_getitem_Ok & ->). by rewrite Hcells.
Qed.

Lemma next_state_Raise rule state (e : exn) :
  next_state rule state = Raise e
  ↔ ∃ i w, window state 3 !! i = Some w ∧ rule !! w = None ∧ e = KeyError w
      ∧ ∀ j w', j < i → window state 3 !! j = Some w' → is_Some (rule !! w').
Proof.
  rewrite <- genexpr_getitem_Raise. unfold next_state.
  destruct (Py.genexpr _ _) as [cells|e']; simpl;
    [split; intros [=]|split; by intros [= ->]].
Qed.

(** Under a dict whose values are single characters, cell [j + 1] of the
    next state is the value of window [j]. *)
Lemma next_state_cells rule state state' :
  (∀ k v, rule !! k = Some v → String.length v = 1) →
  next_state rule state = Ok state' →
  String.length state' = length (window state 3) + 2
  ∧ ∀ j w, window state 3 !! j = Some w →
      ∃ v, rule !! w = Some v ∧ Py.index state' (S j) = Ok v.
Proof.
  intros Hone (cells & Hcells & ->)%next_state_Ok.
  assert (Forall (λ v, String.length v = 1) cells) as Hall.
  { apply Forall_forall. intros v Hv.
    apply list_elem_of_lookup in Hv as [j Hj].
    destruct (Forall2_lookup_r _ _ _ _ _ Hcells Hj) as (w & _ & Hw). eauto. }
  destruct (join_singletons cells Hall) as [Hlen Hget].
  split.
  - rewrite length_padded, Hlen. by rewrite (Forall2_length _ _ _ Hcells).
  - intros j w Hj.
    destruct (Forall2_lookup_l _ _ _ _ _ Hcells Hj) as (v & Hv & Hw).
    exists v. split; [done|].
    specialize (Hget j v Hv). unfold Py.index in *.
    rewrite app_String, app_empty_l. simpl.
    rewrite get_app_l; [done|]. rewrite Hlen. by eapply lookup_lt_Some.
Qed.
End lookups.

(** ** Configurations, neighborhoods and the tables of [get_rule] *)

Section tables.
Implicit Types rule : gmap string string.
Implicit Types s w : string.

Lemma neighborhoods_spec w :
  In w neighborhoods ↔ ∃ a b c, w = neighborhood a b c.
Proof.
  split.
  - simpl. intros [<-|[<-|[<-|[<-|[<-|[<-|[<-|[<-|[]]]]]]]]]; eauto.
  - intros (a & b & c & ->). apply neighborhood_in.
Qed.

Lemma cell_is_cell (b : bool) : is_cell (cell b) = true.
Proof. by destruct b. Qed.

(** Every window of a configuration is a neighborhood. *)
Lemma config_window s i w :
  is_config s = true → window s 3 !! i = Some w → In w neighborhoods.
Proof.
  intros Hcfg [Hi ->]%window_lookup. apply neighborhoods_spec.
  revert i Hi. induction s as [|x s IH]; intros i Hi; simpl in Hi; [lia|].
  simpl in Hcfg. apply andb_true_iff in Hcfg as [Hx Hs].
  destruct i as [|i]; [|apply (IH Hs); lia].
  destruct s as [|y [|z s]]; simpl in Hi; [lia..|].
  simpl in Hs. apply andb_true_iff in Hs as [Hy [Hz _]%andb_true_iff].
  apply is_cell_cell in Hx as [a ->], Hy as [b ->], Hz as [c ->].
  exists a, b, c. apply substring_3.
Qed.

(** A string of at least three symbols all of whose windows are
    neighborhoods is a configuration. *)
Lemma windows_config s :
  3 ≤ String.length s →
  (∀ i w, window s 3 !! i = Some w → In w neighborhoods) →
  is_config s = true.
Proof.
  induction s as [|x s IH]; intros Hlen Hall; [done|].
  destruct s as [|y [|z s]]; simpl in Hlen; [lia..|].
  destruct (proj1 (neighborhoods_spec _)
              (Hall 0 (String x (String y (String z ""))) ltac:(
                 apply window_lookup; split; [simpl; lia|];
                 symmetry; apply substring_3)))
    as (a & b & c & [= -> -> ->]).
  destruct s as [|u s]; [by destruct a, b, c|].
  cbn [is_config]. rewrite cell_is_cell. cbn [andb].
  apply IH; [simpl; lia|].
  intros i w [Hi ->]%window_lookup. apply (Hall (S i)).
  apply window_lookup. split; [simpl in *; lia|done].
Qed.

Lemma table_of_bits_rule_table (f : nat → bool) :
  is_rule_table (table_of (λ i, cell_str (f i))) = true.
Proof.
  unfold is_rule_table. apply forallb_forall.
  intros pat (a & b & c & ->)%neighborhoods_spec.
  rewrite table_of_lookup. by destruct (f _).
Qed.

Lemma the_rule_nonneg (n : Z) :
  (0 ≤ n)%Z →
  the_rule n = table_of (λ i, cell_str (Z.testbit n (Z.of_nat i))).
Proof. intros Hn. unfold the_rule. by rewrite get_rule_nonneg. Qed.

Lemma the_rule_neg (p : positive) :
  the_rule (Z.neg p)
  = table_of (λ i, if decide (i = 7 ∧ (Z.pos p < 128)%Z) then "-"
                   else cell_str (Z.testbit (Z.pos p) (Z.of_nat i))).
Proof. unfold the_rule. by rewrite get_rule_neg. Qed.

(** The keys of a table of [get_rule] are the eight neighborhoods. *)
Lemma table_of_key (g : nat → string) w :
  is_Some (table_of g !! w) ↔ In w neighborhoods.
Proof.
  rewrite <- elem_of_dom, table_of_dom, elem_of_list_to_set.
  apply list_elem_of_In.
Qed.

(** The values of a table are the strings read off the digit string. *)
Lemma table_of_value (g : nat → string) w v :
  table_of g !! w = Some v → ∃ i, i < 8 ∧ v = g i.
Proof.
  intros Hv.
  assert (In w neighborhoods) as (a & b & c & ->)%neighborhoods_spec
    by (apply (table_of_key g); eauto).
  rewrite table_of_lookup in Hv. injection Hv as <-.
  eexists. split; [|done].
  pose proof (neighborhood_index_bounds a b c). lia.
Qed.

(** Whatever the integer, the values of the table of [get_rule] are single
    characters. *)
Lemma the_rule_value_length (n : Z) (w v : string) :
  the_rule n !! w = Some v → String.length v = 1.
Proof.
  destruct n as [|p|p].
  - rewrite the_rule_nonneg by lia. intros (i & _ & ->)%table_of_value. done.
  - rewrite the_rule_nonneg by lia. intros (i & _ & ->)%table_of_value. done.
  - rewrite the_rule_neg. intros (i & _ & ->)%table_of_value.
    by case_decide.
Qed.

Lemma the_rule_key (n : Z) w :
  is_Some (the_rule n !! w) ↔ In w neighborhoods.
Proof.
  destruct n as [|p|p];
    rewrite ?the_rule_neg, ?the_rule_nonneg by lia; apply table_of_key.
Qed.

(** Under a table of [get_rule], a state of at least three symbols that is
    no configuration has a window that is no key. *)
Lemma next_state_not_config (n : Z) s :
  3 ≤ String.length s → is_config s = false →
  ∃ i w, window s 3 !! i = Some w
    ∧ ¬ In w neighborhoods
    ∧ next_state (the_rule n) s = Raise (KeyError w).
Proof.
  intros Hlen Hcfg.
  destruct (next_state (the_rule n) s) as [s'|e] eqn:Hstep.
  - exfalso. apply not_true_iff_false in Hcfg. apply Hcfg.
    apply windows_config; [done|]. intros i w Hw. apply (the_rule_key n).
    apply next_state_Ok in Hstep as (cells & Hcells & _).
    destruct (Forall2_lookup_l _ _ _ _ _ Hcells Hw) as (v & _ & Hv). eauto.
  - pose proof Hstep as (i & w & Hw & Hnone & -> & _)%next_state_Raise.
    exists i, w. split; [done|]. split; [|done].
    intros Hin%(the_rule_key n). rewrite Hnone in Hin. by destruct Hin.
Qed.

(** On a configuration, a table of [get_rule] finds every window. *)
Lemma next_state_the_rule (n : Z) s :
  is_config s = true → ∃ s', next_state (the_rule n) s = Ok s'.
Proof.
  intros Hcfg.
  destruct (next_state (the_rule n) s) as [s'|e] eqn:Hstep; [eauto|].
  apply next_state_Raise in Hstep as (i & w & Hw & Hnone & _).
  apply (config_window _ _ _ Hcfg), (the_rule_key n) in Hw as [v Hv].
  congruence.
Qed.

Lemma is_config_get s i (c : ascii) :
  is_config s = true → String.get i s = Some c → is_cell c = true.
Proof.
  revert i. induction s as [|x s IH]; intros i Hcfg Hget; [by destruct i|].
  simpl in Hcfg. apply andb_true_iff in Hcfg as [Hx Hs].
  destruct i as [|i]; simpl in Hget; [by injection Hget as <-|eauto].
Qed.
End tables.

(** ** Further properties of the step *)

(** X2. The step succeeds exactly when every window of the state is a key
    of the rule dict. Otherwise it raises the [KeyError] of the leftmost
    window that is not a key, and nothing else. *)
Theorem next_state_outcome (rule : gmap string string) (state : string) :
  ((∃ state', next_state rule state = Ok state')
   ↔ ∀ i w, window state 3 !! i = Some w → is_Some (rule !! w))
  ∧ ∀ e, next_state rule state = Raise e
      ↔ ∃ i w, window state 3 !! i = Some w ∧ rule !! w = None
          ∧ e = KeyError w
          ∧ ∀ j w', j < i → window state 3 !! j = Some w' →
              is_Some (rule !! w').
Proof.
  split; [|apply next_state_Raise]. split.
  - intros (state' & (cells & Hcells & _)%next_state_Ok) i w Hw.
    destruct (Forall2_lookup_l _ _ _ _ _ Hcells Hw) as (v & _ & Hv). eauto.
  - intros Hall. destruct (next_state rule state) as [state'|e] eqn:Hstep; [eauto|].
    apply next_state_Raise in Hstep as (i & w & Hw & Hnone & _).
    destruct (Hall i w Hw) as [v Hv]. congruence.
Qed.

(** X3. Under a rule dict whose values are single characters, a step that
    succeeds returns a state with one cell per window and the two pad
    cells, and cell [j + 1] of it is the value of the rule at window [j],
    the three cells [j], [j + 1], [j + 2] of the old state. *)
Theorem next_state_local (rule : gmap string string)
    (state state' : string) (j : nat) :
  (∀ k v, rule !! k = Some v → String.length v = 1) →
  next_state rule state = Ok state' →
  j + 3 ≤ String.length state →
  String.length state' = String.length state
  ∧ ∃ v, rule !! Py.slice state j (j + 3) = Some v
      ∧ Py.index state' (j + 1) = Ok v.
Proof.
  intros Hone Hstep Hj.
  destruct (next_state_cells rule state state' Hone Hstep) as [Hlen Hcells].
  split; [rewrite Hlen, window_length; lia|].
  destruct (Hcells j (String.substring j 3 state)) as (v & Hv & Hindex).
  { by apply window_lookup. }
  exists v. unfold Py.slice. replace (j + 3 - j) with 3 by lia.
  by replace (j + 1) with (S j) by lia.
Qed.

Lemma next_state_local_witness :
  String.length "01010" = String.length "00100"
  ∧ ∃ v, the_rule 90 !! Py.slice "00100" 1 (1 + 3) = Some v
      ∧ Py.index "01010" (1 + 1) = Ok v.
Proof.
  apply (next_state_local (the_rule 90) "00100" "01010" 1);
    [apply the_rule_value_length | reflexivity | simpl; lia].
Defined.

(** X4. Under a table of [get_rule] a state of at least three symbols with
    a symbol other than 0 and 1 is not stepped: the step raises the
    [KeyError] of a window that is no neighborhood, and so does
    [generate_pattern] for every generation count from 1 on. *)
Theorem generate_pattern_invalid_symbol (n : Z) (state : string)
    (max_gen : Z) :
  3 ≤ String.length state → is_config state = false → (1 ≤ max_gen)%Z →
  ∃ i w, window state 3 !! i = Some w
    ∧ ¬ In w neighborhoods
    ∧ next_state (the_rule n) state = Raise (KeyError w)
    ∧ generate_pattern state (the_rule n) max_gen = Raise (KeyError w).
Proof.
  intros Hlen Hcfg Hgen.
  destruct (next_state_not_config n state Hlen Hcfg) as (i & w & Hw & Hnot & Hstep).
  exists i, w. repeat split; [done..|].
  unfold generate_pattern, Py.range.
  destruct (Z.to_nat max_gen) as [|k] eqn:Hk; [lia|].
  simpl. by rewrite Hstep.
Qed.

Lemma generate_pattern_invalid_symbol_witness :
  ∃ i w, window "01a10" 3 !! i = Some w
    ∧ ¬ In w neighborhoods
    ∧ next_state (the_rule 90) "01a10" = Raise (KeyError w)
    ∧ generate_pattern "01a10" (the_rule 90) 100 = Raise (KeyError w).
Proof.
  apply (generate_pattern_invalid_symbol 90 "01a10" 100);
    [simpl; lia | reflexivity | lia].
Defined.

(** ** The engine and the rule number *)

Section wolfram.
Implicit Types rule : gmap string string.
Implicit Types n : Z.

Lemma substring_repeat (c : ascii) (i k L : nat) :
  i + k ≤ L → String.substring i k (Py.repeat c L) = Py.repeat c k.
Proof.
  revert i k. induction L as [|L IH]; intros i k Hik.
  - by replace i with 0 by lia; replace k with 0 by lia.
  - destruct i as [|i]; [destruct k as [|k]; [done|]|]; simpl.
    + f_equal. apply IH. lia.
    + apply IH. lia.
Qed.

Lemma window_repeat (c : ascii) (L : nat) :
  window (Py.repeat c L) 3 = replicate (L - 2) (Py.repeat c 3).
Proof.
  apply list_eq. intros i. apply option_eq. intros w.
  rewrite window_lookup, lookup_replicate, length_repeat. split.
  - intros [Hi ->]. split; [by apply substring_repeat|lia].
  - intros [-> Hi]. split; [lia|]. symmetry. apply substring_repeat. lia.
Qed.

Lemma genexpr_replicate rule (w v : string) (k : nat) :
  rule !! w = Some v →
  Py.genexpr (Py.getitem rule) (replicate k w) = Ok (replicate k v).
Proof.
  intros Hw. induction k as [|k IH]; [done|].
  simpl replicate. by rewrite genexpr_cons, (getitem_Some _ _ _ Hw), IH.
Qed.

Lemma join_replicate (c : ascii) (k : nat) :
  Py.join (replicate k (String c "")) = Py.repeat c k.
Proof.
  induction k as [|k IH]; [done|].
  simpl replicate. by rewrite join_cons, IH.
Qed.

Lemma repeat_padded (L : nat) :
  2 ≤ L → "0" +:+ Py.repeat "0" (L - 2) +:+ "0" = Py.repeat "0" L.
Proof.
  intros HL. rewrite repeat_snoc, app_String, app_empty_l.
  by replace L with (S (S (L - 2))) at 2 by lia.
Qed.

(** A state that the step maps to itself is repeated by the loop. *)
Lemma generate_loop_fixed rule gens (state : string) (states : list string) :
  next_state rule state = Ok state →
  generate_loop rule gens state states
  = Ok (states ++ replicate (length gens) state).
Proof.
  intros Hfix. revert states.
  induction gens as [|g gens IH]; intros states; simpl.
  - by rewrite app_nil_r.
  - rewrite Hfix. simpl. by rewrite IH, <- app_assoc.
Qed.
End wolfram.

(** X5. The engine runs the rule of the number: for a rule number [n ≥ 0]
    and a configuration, the step succeeds, the next state is a
    configuration again, and where window [j] reads the neighborhood
    [a b c], cell [j + 1] of the next state is bit [4a + 2b + c] of [n]. *)
Theorem next_state_wolfram (n : Z) (state : string) (j : nat)
    (a b c : bool) :
  (0 ≤ n)%Z → is_config state = true →
  window state 3 !! j = Some (neighborhood a b c) →
  ∃ state', next_state (the_rule n) state = Ok state'
    ∧ is_config state' = true
    ∧ Py.index state' (j + 1)
      = Ok (cell_str (Z.testbit n (neighborhood_index a b c))).
Proof.
  intros Hn Hcfg Hw.
  destruct (next_state_config (the_rule n) state) as (interior & Hstep & Hi & _);
    [rewrite the_rule_nonneg by done; apply table_of_bits_rule_table|done|].
  eexists. split; [done|]. split; [by rewrite is_config_padded|].
  destruct (next_state_cells _ _ _ (the_rule_value_length n) Hstep)
    as [_ Hcells].
  destruct (Hcells j _ Hw) as (v & Hv & Hindex).
  replace (j + 1) with (S j) by lia. rewrite Hindex. f_equal.
  rewrite the_rule_nonneg, table_of_lookup in Hv by done.
  injection Hv as <-.
  by rewrite Z2Nat.id by apply neighborhood_index_bounds.
Qed.

Lemma next_state_wolfram_witness :
  ∃ state', next_state (the_rule 110) "0110100" = Ok state'
    ∧ is_config state' = true
    ∧ Py.index state' (1 + 1)
      = Ok (cell_str (Z.testbit 110 (neighborhood_index true true false))).
Proof.
  apply (next_state_wolfram 110 "0110100" 1 true true false);
    [lia | reflexivity | reflexivity].
Defined.

(** X6. The all-off configuration under a rule number [n ≥ 0]: one step
    turns the interior to bit 0 of [n] and pads it with off-cells. For an
    even [n] an all-off configuration of at least two cells is therefore
    kept for ever; for an odd [n] only its two border cells stay off. *)
Theorem next_state_all_off (n : Z) (L : nat) (max_gen : Z) :
  (0 ≤ n)%Z →
  next_state (the_rule n) (Py.repeat "0" L)
  = Ok ("0" +:+ Py.repeat (cell (Z.odd n)) (L - 2) +:+ "0")
  ∧ (Z.even n = true → 2 ≤ L →
     generate_pattern (Py.repeat "0" L) (the_rule n) max_gen
     = Ok (replicate (S (Z.to_nat max_gen)) (Py.repeat "0" L))).
Proof.
  intros Hn.
  assert (next_state (the_rule n) (Py.repeat "0" L)
          = Ok ("0" +:+ Py.repeat (cell (Z.odd n)) (L - 2) +:+ "0")) as Hstep.
  { unfold next_state. rewrite window_repeat.
    rewrite (genexpr_replicate _ _ (cell_str (Z.odd n))).
    - simpl. unfold cell_str. by rewrite join_replicate.
    - rewrite the_rule_nonneg by done.
      rewrite (table_of_lookup _ false false false).
      change (Z.of_nat (Z.to_nat (neighborhood_index false false false)))
        with 0%Z.
      by rewrite Z.bit0_odd. }
  split; [done|]. intros Heven HL.
  unfold generate_pattern. rewrite generate_loop_fixed, range_length; [done|].
  rewrite Hstep. rewrite <- Z.negb_even, Heven. simpl cell.
  by rewrite repeat_padded.
Qed.

Lemma next_state_all_off_witness :
  next_state (the_rule 90) (Py.repeat "0" 3)
  = Ok ("0" +:+ Py.repeat (cell (Z.odd 90)) (3 - 2) +:+ "0")
  ∧ (Z.even 90 = true → 2 ≤ 3 →
     generate_pattern (Py.repeat "0" 3) (the_rule 90) 4
     = Ok (replicate (S (Z.to_nat 4)) (Py.repeat "0" 3))).
Proof. apply (next_state_all_off 90 3 4). lia. Defined.

(** X7. A rule number [-128 < n < 0] is accepted by [get_rule] but breaks
    the run later: on a configuration with a window 111 the first step
    succeeds and writes the sign character into the cell under that
    window, and the second step raises a [KeyError]; so does
    [generate_pattern] for every generation count from 2 on. *)
Theorem generate_pattern_negative_rule (n : Z) (state : string) (j : nat)
    (max_gen : Z) :
  (-128 < n < 0)%Z → is_config state = true →
  window state 3 !! j = Some "111" → (2 ≤ max_gen)%Z →
  ∃ state' w,
    next_state (the_rule n) state = Ok state'
    ∧ Py.index state' (j + 1) = Ok "-"
    ∧ next_state (the_rule n) state' = Raise (KeyError w)
    ∧ generate_pattern state (the_rule n) max_gen = Raise (KeyError w).
Proof.
  intros Hn Hcfg Hw Hgen.
  destruct (next_state_the_rule n state Hcfg) as [state' Hstep].
  destruct (next_state_cells _ _ _ (the_rule_value_length n) Hstep)
    as [Hlen Hcells].
  destruct (Hcells j _ Hw) as (v & Hv & Hindex).
  assert (v = "-") as ->.
  { destruct n as [|p|p]; [lia..|].
    rewrite the_rule_neg in Hv.
    rewrite (table_of_lookup _ true true true) in Hv. simpl in Hv.
    rewrite decide_True in Hv by (split; [done|lia]). congruence. }
  assert (is_config state' = false) as Hbad.
  { apply not_true_iff_false. intros Hcfg'.
    unfold Py.index in Hindex.
    destruct (String.get (S j) state') as [c|] eqn:Hget; [|done].
    injection Hindex as ->. by apply (is_config_get _ _ _ Hcfg') in Hget. }
  assert (3 ≤ String.length state') as Hlen'.
  { apply lookup_lt_Some in Hw. lia. }
  destruct (next_state_not_config n state' Hlen' Hbad) as (i & w & _ & _ & Hstep').
  exists state', w. replace (j + 1) with (S j) by lia. repeat split; [done..|].
  unfold generate_pattern, Py.range.
  destruct (Z.to_nat max_gen) as [|[|k]] eqn:Hk; [lia..|].
  simpl. rewrite Hstep. simpl. by rewrite Hstep'.
Qed.

Lemma generate_pattern_negative_rule_witness :
  ∃ state' w,
    next_state (the_rule (-1)) "01110" = Ok state'
    ∧ Py.index state' (1 + 1) = Ok "-"
    ∧ next_state (the_rule (-1)) state' = Raise (KeyError w)
    ∧ generate_pattern "01110" (the_rule (-1)) 2 = Raise (KeyError w).
Proof.
  apply (generate_pattern_negative_rule (-1) "01110" 1 2);
    [lia | reflexivity | reflexivity | lia].
Defined.

(** ** Further properties of the loop *)

Section runs.
Implicit Types rule : gmap string string.
Implicit Types state : string.
Implicit Types states rest : list string.

(** Each state the loop adds is the successor of the one before it. *)
Lemma generate_loop_chain rule gens state states res :
  generate_loop rule gens state states = Ok res →
  ∃ rest, res = states ++ rest
    ∧ ∀ k c c', (state :: rest) !! k = Some c → rest !! k = Some c' →
        next_state rule c = Ok c'.
Proof.
  revert state states. induction gens as [|g gens IH]; intros state states.
  - intros [= <-]. exists []. split; [by rewrite app_nil_r|].
    intros k c c' _ Hc'. by rewrite lookup_nil in Hc'.
  - cbn [generate_loop].
    destruct (next_state rule state) as [state'|e] eqn:Hstep; [|done].
    intros (rest & -> & Hchain)%IH.
    exists (state' :: rest). split; [by rewrite <- app_assoc|].
    intros [|k] c c' Hc Hc'; simpl in Hc, Hc'.
    + by injection Hc as <-; injection Hc' as <-.
    + by apply (Hchain k).
Qed.

(** The loop does not look at the generation numbers. *)
Lemma generate_loop_length rule (gens gens' : list nat) state states :
  length gens = length gens' →
  generate_loop rule gens state states = generate_loop rule gens' state states.
Proof.
  revert gens' state states.
  induction gens as [|g gens IH]; intros [|g' gens'] state states Hlen;
    simpl in Hlen; [done|lia|lia|].
  cbn [generate_loop]. destruct (next_state rule state); simpl; [|done].
  apply IH. lia.
Qed.

(** The states given to the loop are only carried along. *)
Lemma generate_loop_acc rule gens state states :
  generate_loop rule gens state states
  = (rest ← generate_loop rule gens state []; Ok (states ++ rest)).
Proof.
  revert state states. induction gens as [|g gens IH]; intros state states.
  - simpl. by rewrite app_nil_r.
  - cbn [generate_loop].
    destruct (next_state rule state) as [state'|e]; simpl; [|done].
    rewrite (IH state' (states ++ [state'])), (IH state' [state']).
    destruct (generate_loop rule gens state' []) as [rest|e]; simpl; [|done].
    by rewrite <- app_assoc.
Qed.

(** Running the loop for two stretches of generations in a row. *)
Lemma generate_loop_app rule (gens1 gens2 : list nat) state :
  generate_loop rule (gens1 ++ gens2) state []
  = (rest1 ← generate_loop rule gens1 state [];
     rest2 ← generate_loop rule gens2 (default state (last rest1)) [];
     Ok (rest1 ++ rest2)).
Proof.
  revert state. induction gens1 as [|g gens1 IH]; intros state.
  - simpl. by destruct (generate_loop rule gens2 state []).
  - cbn [app generate_loop].
    destruct (next_state rule state) as [state'|e]; simpl; [|done].
    rewrite (generate_loop_acc rule (gens1 ++ gens2)), IH.
    rewrite (generate_loop_acc rule gens1 state' [state']).
    destruct (generate_loop rule gens1 state' []) as [rest1|e]; simpl; [|done].
    replace (default state (last (state' :: rest1)))
      with (default state' (last rest1))
      by (destruct rest1 as [|x rest1] using rev_ind;
          [done|by rewrite app_comm_cons, !last_snoc]).
    by destruct (generate_loop rule gens2 _ []).
Qed.

(** When the list-returning loop fails, the printing loop fails alike,
    after printing the states up to the one the step failed on. *)
Lemma text_loop_raise rule gens state states (out : list string) (e : exn) :
  generate_loop rule gens state states = Raise e →
  ∃ printed,
    text_loop rule gens state out
    = (out ++ (formatted_state <$> printed), Raise e)
    ∧ printed !! 0 = Some state
    ∧ length printed ≤ length gens
    ∧ ∃ l, last printed = Some l ∧ next_state rule l = Raise e.
Proof.
  revert state states out.
  induction gens as [|g gens IH]; intros state states out; [done|].
  cbn [generate_loop text_loop].
  destruct (next_state rule state) as [state'|e'] eqn:Hstep; simpl.
  - intros Hloop.
    destruct (IH state' _ (print_pattern state out) Hloop)
      as (printed & Htext & Hfirst & Hlen & l & Hlast & Hl).
    exists (state :: printed). rewrite Htext. unfold print_pattern.
    rewrite <- app_assoc. repeat split; [simpl; lia|].
    exists l. split; [|done].
    destruct printed as [|x printed]; [done|]. by rewrite last_cons_cons.
  - intros [= ->]. exists [state]. repeat split; [simpl; lia|].
    by exists state.
Qed.
End runs.

(** X8. In the sequence [generate_pattern] returns, whatever the rule dict
    and the state, each element is the step of the element before it. *)
Theorem generate_pattern_chain (state : string) (rule : gmap string string)
    (max_gen : Z) (states : list string) (k : nat) (c c' : string) :
  generate_pattern state rule max_gen = Ok states →
  states !! k = Some c → states !! S k = Some c' →
  next_state rule c = Ok c'.
Proof.
  intros (rest & -> & Hchain)%generate_loop_chain Hc Hc'.
  by apply (Hchain k).
Qed.

Lemma generate_pattern_chain_witness :
  next_state (the_rule 90) "01010" = Ok "00000".
Proof.
  apply (generate_pattern_chain "00100" (the_rule 90) 2
           ["00100"; "01010"; "00000"] 1 "01010" "00000");
    [vm_compute; reflexivity | reflexivity | reflexivity].
Defined.

(** X9. Generations compose: running [n + m] generations is running [n]
    generations and then [m] more from the last state reached, the two
    sequences being glued at that state. The equation covers failure: the
    exception of either run is the exception of the whole. *)
Theorem generate_pattern_compose (state : string)
    (rule : gmap string string) (n m : Z) :
  (0 ≤ n)%Z → (0 ≤ m)%Z →
  generate_pattern state rule (n + m)
  = (states ← generate_pattern state rule n;
     more ← generate_pattern (default state (last states)) rule m;
     Ok (states ++ tail more)).
Proof.
  intros Hn Hm. unfold generate_pattern.
  rewrite (generate_loop_length rule (Py.range (n + m))
             (Py.range n ++ Py.range m))
    by (rewrite length_app, !range_length; lia).
  rewrite (generate_loop_acc rule (_ ++ _)), generate_loop_app.
  rewrite (generate_loop_acc rule (Py.range n) state [state]).
  destruct (generate_loop rule (Py.range n) state []) as [rest1|e]; simpl; [|done].
  replace (default state (last (state :: rest1)))
    with (default state (last rest1))
    by (destruct rest1 as [|x rest1] using rev_ind;
        [done|by rewrite app_comm_cons, !last_snoc]).
  rewrite (generate_loop_acc rule (Py.range m) _ [_]).
  by destruct (generate_loop rule (Py.range m) _ []).
Qed.

Lemma generate_pattern_compose_witness :
  generate_pattern "0001000" (the_rule 30) (2 + 3)
  = (states ← generate_pattern "0001000" (the_rule 30) 2;
     more ← generate_pattern (default "0001000" (last states))
              (the_rule 30) 3;
     Ok (states ++ tail more)).
Proof. apply (generate_pattern_compose "0001000" (the_rule 30) 2 3); lia. Defined.

(** X10. When [generate_pattern] of the animation notebook raises, the
    one of the text notebook raises the same exception on the same input;
    by then it has printed the initial state first, at most one line per
    generation, and last the state on which the step failed. *)
Theorem generate_pattern_text_raise (state : string)
    (rule : gmap string string) (max_gen : Z) (e : exn) :
  generate_pattern state rule max_gen = Raise e →
  ∃ printed,
    generate_pattern_text state rule max_gen
    = (formatted_state <$> printed, Raise e)
    ∧ printed !! 0 = Some state
    ∧ length printed ≤ Z.to_nat max_gen
    ∧ ∃ l, last printed = Some l ∧ next_state rule l = Raise e.
Proof.
  intros Hrun. rewrite <- range_length.
  apply (text_loop_raise rule (Py.range max_gen) state [state] [] e Hrun).
Qed.

Lemma generate_pattern_text_raise_witness :
  ∃ printed,
    generate_pattern_text "01110" (the_rule (-1)) 5
    = (formatted_state <$> printed, Raise (KeyError "00-"))
    ∧ printed !! 0 = Some "01110"
    ∧ length printed ≤ Z.to_nat 5
    ∧ ∃ l, last printed = Some l
        ∧ next_state (the_rule (-1)) l = Raise (KeyError "00-").
Proof.
  apply (generate_pattern_text_raise "01110" (the_rule (-1)) 5).
  vm_compute. reflexivity.
Defined.

(** ** Random initial states, the printed lines and the animation frames *)

Section presentation.
Implicit Types s t : string.

Lemma random_init_state_cells (choice : nat → bool) (length : Z) :
  random_init_state choice length
  = Py.join (cell_str <$> (choice <$> Py.range length)).
Proof.
  unfold random_init_state. f_equal.
  rewrite <- list_fmap_compose. apply map_ext. intros k.
  unfold compose. by destruct (choice k).
Qed.

Lemma interesting_rules_nonneg (n : Z) : In n interesting_rules → (0 ≤ n)%Z.
Proof. simpl. intros H. repeat (destruct H as [<-|H]; [lia|]). done. Qed.

Lemma replace_app (c : ascii) (r s t : string) :
  Py.replace c r (s +:+ t) = Py.replace c r s +:+ Py.replace c r t.
Proof.
  induction s as [|x s IH]; [done|].
  rewrite app_String. simpl. rewrite IH.
  destruct (Ascii.eqb x c); [by rewrite app_assoc_str|done].
Qed.

Lemma formatted_state_off s :
  formatted_state (String "0" s) = String " " (formatted_state s).
Proof. reflexivity. Qed.

Lemma formatted_state_on s :
  formatted_state (String "1" s) = glyph +:+ formatted_state s.
Proof.
  unfold formatted_state. simpl Py.replace at 2. by rewrite replace_app.
Qed.

Lemma mapM_Some_fmap {A B} (f : A → option B) (g : A → B) (l : list A) :
  Forall (λ x, f x = Some (g x)) l → mapM f l = Some (g <$> l).
Proof.
  intros Hall. apply mapM_Some. induction Hall; constructor; auto.
Qed.

(** The integers of the cells of a configuration. *)
Lemma row_of_config s :
  is_config s = true →
  mapM int_of_cell (list_ascii_of_string s)
  = Some ((λ c, if Ascii.eqb c "1" then 1%Z else 0%Z)
            <$> list_ascii_of_string s).
Proof.
  intros Hcfg. apply mapM_Some_fmap.
  induction s as [|c s IH]; [constructor|].
  simpl in Hcfg. apply andb_true_iff in Hcfg as [[b ->]%is_cell_cell Hs].
  constructor; [by destruct b|by apply IH].
Qed.

Lemma length_list_ascii_of_string s :
  length (list_ascii_of_string s) = String.length s.
Proof. induction s as [|c s IH]; simpl; congruence. Qed.
End presentation.

(** X11. [random_init_state] returns, whatever is drawn, a configuration of
    the requested length, and the empty one for a negative length. *)
Theorem random_init_state_config (choice : nat → bool) (length : Z) :
  is_config (random_init_state choice length) = true
  ∧ String.length (random_init_state choice length) = Z.to_nat length.
Proof.
  rewrite random_init_state_cells.
  destruct (join_cells (choice <$> Py.range length)) as [Hlen Hcfg].
  split; [done|]. by rewrite Hlen, length_fmap, range_length.
Qed.

(** X12. The random execution of the animation notebook cannot raise:
    whatever state [random_init_state] draws and whichever of the
    interesting rules is drawn, 901 included, [get_rule] returns a table
    and [generate_pattern] returns [max_gen + 1] configurations, all of the
    drawn length when that is at least 2. *)
Theorem random_execution (choice : nat → bool) (n length max_gen : Z) :
  In n interesting_rules → (2 ≤ length)%Z → (0 ≤ max_gen)%Z →
  ∃ rule states,
    get_rule n = Ok rule
    ∧ generate_pattern (random_init_state choice length) rule max_gen
      = Ok states
    ∧ Z.of_nat (List.length states) = (max_gen + 1)%Z
    ∧ Forall (λ s, is_config s = true ∧ Py.len s = length) states.
Proof.
  intros Hn%interesting_rules_nonneg Hlen Hgen.
  assert (is_config (random_init_state choice length) = true
          ∧ String.length (random_init_state choice length)
            = Z.to_nat length) as [Hcfg Hl].
  { rewrite random_init_state_cells.
    destruct (join_cells (choice <$> Py.range length)) as [Hl Hcfg].
    split; [done|]. by rewrite Hl, length_fmap, range_length. }
  eexists. rewrite get_rule_nonneg by done.
  destruct (generate_pattern_config
              (table_of (λ i, cell_str (Z.testbit n (Z.of_nat i))))
              (random_init_state choice length) max_gen)
    as (rest & Hrun & Hrest & Hall);
    [apply table_of_bits_rule_table|done|].
  eexists. split; [done|]. split; [done|]. split; [simpl; lia|].
  constructor; [split; [done|unfold Py.len; lia]|].
  eapply Forall_impl; [done|]. intros s [Hs Hsl]. split; [done|].
  unfold Py.len. lia.
Qed.

Lemma random_execution_witness :
  ∃ rule states,
    get_rule 901 = Ok rule
    ∧ generate_pattern (random_init_state (λ k, Nat.even k) 300) rule 200
      = Ok states
    ∧ Z.of_nat (List.length states) = (200 + 1)%Z
    ∧ Forall (λ s, is_config s = true ∧ Py.len s = 300%Z) states.
Proof.
  apply (random_execution (λ k, Nat.even k) 901 300 200);
    [simpl; tauto | lia | lia].
Defined.

(** X13. On configurations the printed line determines the state: two
    configurations with the same formatted line are equal. Off
    configurations this fails, a 0 and a blank being printed alike. *)
Theorem formatted_state_inj (s t : string) :
  is_config s = true → is_config t = true →
  formatted_state s = formatted_state t → s = t.
Proof.
  revert t. induction s as [|x s IH]; intros [|y t] Hs Ht; simpl in Hs, Ht.
  - done.
  - apply andb_true_iff in Ht as [[b ->]%is_cell_cell _].
    destruct b; [rewrite formatted_state_on|rewrite formatted_state_off]; done.
  - apply andb_true_iff in Hs as [[a ->]%is_cell_cell _].
    destruct a; [rewrite formatted_state_on|rewrite formatted_state_off]; done.
  - apply andb_true_iff in Hs as [[a ->]%is_cell_cell Hs].
    apply andb_true_iff in Ht as [[b ->]%is_cell_cell Ht].
    destruct a, b; simpl cell;
      rewrite ?formatted_state_on, ?formatted_state_off;
      intros Heq; try discriminate Heq.
    + f_equal. apply IH; [done..|]. by injection Heq.
    + f_equal. apply IH; [done..|]. by injection Heq.
Qed.

Lemma formatted_state_inj_witness :
  "0110" = "0110"
  ∧ formatted_state "0" = formatted_state " ".
Proof.
  split; [|reflexivity].
  apply (formatted_state_inj "0110" "0110"); reflexivity.
Defined.

(** X14. The frames of the animation fit. For the sequence the engine
    returns on a configuration of at least two cells under a rule table,
    and for every frame number below its length, the nested list of
    [update] raises no [ValueError]: it has [frame + 1] rows, each as wide
    as the initial state and holding only 0 and 1 (never the -1 of the
    mask); the padding asked of [np.full] has the remaining
    [len(states) - frame - 1] rows, none negative, and the same width. *)
Theorem update_rows_fit (state : string) (rule : gmap string string)
    (max_gen : Z) (states : list string) (frame : nat) :
  is_rule_table rule = true → is_config state = true →
  2 ≤ String.length state →
  generate_pattern state rule max_gen = Ok states →
  frame < length states →
  ∃ rows,
    update_rows frame states = Some rows
    ∧ length rows = frame + 1
    ∧ Forall (λ row, length row = String.length state
                     ∧ Forall (λ x, x = 0%Z ∨ x = 1%Z) row) rows
    ∧ update_padding_shape frame states
      = Some (Z.of_nat (length states - (frame + 1)), Py.len state).
Proof.
  intros Hrule Hcfg Hlen Hrun Hframe.
  destruct (generate_pattern_config rule state max_gen Hrule Hcfg)
    as (rest & Hrun' & _ & Hall).
  rewrite Hrun in Hrun'. injection Hrun' as ->.
  assert (Forall (λ s, is_config s = true
                       ∧ String.length s = String.length state)
                 (state :: rest)) as Hstates.
  { constructor; [done|]. eapply Forall_impl; [done|].
    intros s [Hs Hsl]. split; [done|lia]. }
  set (bit := λ c : ascii, if Ascii.eqb c "1" then 1%Z else 0%Z).
  exists ((λ s, bit <$> list_ascii_of_string s) <$> take (frame + 1) (state :: rest)).
  split; [|split; [|split]].
  - unfold update_rows. apply mapM_Some_fmap.
    apply Forall_take. eapply Forall_impl; [done|].
    intros s [Hs _]. by apply row_of_config.
  - rewrite length_fmap, length_take. lia.
  - apply Forall_fmap, Forall_take. eapply Forall_impl; [done|].
    intros s [Hs Hsl]. simpl. split.
    + by rewrite length_fmap, length_list_ascii_of_string.
    + apply Forall_fmap, Forall_forall. intros c _. unfold bit. simpl.
      destruct (Ascii.eqb c "1"); auto.
  - unfold update_padding_shape. do 2 f_equal. lia.
Qed.

Lemma update_rows_fit_witness :
  ∃ rows,
    update_rows 1 ["00100"; "01010"; "00000"] = Some rows
    ∧ length rows = 1 + 1
    ∧ Forall (λ row, length row = String.length "00100"
                     ∧ Forall (λ x, x = 0%Z ∨ x = 1%Z) row) rows
    ∧ update_padding_shape 1 ["00100"; "01010"; "00000"]
      = Some (Z.of_nat (length ["00100"; "01010"; "00000"] - (1 + 1)),
              Py.len "00100").
Proof.
  apply (update_rows_fit "00100" (the_rule 90) 2
           ["00100"; "01010"; "00000"] 1);
    [reflexivity | reflexivity | simpl; lia | vm_compute; reflexivity
    | simpl; lia].
Defined.

(** ** The rule number from the table *)

Lemma table_of_bits_inj (f g : nat → bool) (i : nat) :
  table_of (λ i, cell_str (f i)) = table_of (λ i, cell_str (g i)) →
  i < 8 → f i = g i.
Proof.
  intros Heq Hi.
  assert (∀ a b c, f (Z.to_nat (neighborhood_index a b c))
                   = g (Z.to_nat (neighborhood_index a b c))) as Hall.
  { intros a b c.
    pose proof (table_of_lookup (λ i, cell_str (f i)) a b c) as Hf.
    rewrite Heq, table_of_lookup in Hf.
    by destruct (f _), (g _). }
  do 8 (destruct i as [|i];
        [first [ apply (Hall false false false) | apply (Hall false false true)
               | apply (Hall false true false) | apply (Hall false true true)
               | apply (Hall true false false) | apply (Hall true false true)
               | apply (Hall true true false) | apply (Hall true true true) ]|]).
  lia.
Qed.

(** X15. The table determines the rule number up to its low eight bits:
    two non-negative rule numbers get the same table from [get_rule]
    exactly when they agree modulo 256. On [0, 255] no two rule numbers
    share a table. *)
Theorem get_rule_eq_iff (n m : Z) :
  (0 ≤ n)%Z → (0 ≤ m)%Z →
  get_rule n = get_rule m ↔ (n mod 256 = m mod 256)%Z.
Proof.
  intros Hn Hm. rewrite !get_rule_nonneg by done. split.
  - intros Heq.
    apply (f_equal (λ r, match r with Ok t => t | Raise _ => ∅ end)) in Heq.
    cbv beta iota in Heq.
    apply Z.bits_inj'. intros i Hi.
    change 256%Z with (2 ^ 8)%Z.
    destruct (decide (i < 8)%Z) as [Hlt|Hge].
    + rewrite !Z.mod_pow2_bits_low by done.
      rewrite <- (Z2Nat.id i) by done.
      apply (table_of_bits_inj (λ i, Z.testbit n (Z.of_nat i))
               (λ i, Z.testbit m (Z.of_nat i)) (Z.to_nat i) Heq). lia.
    + by rewrite !Z.mod_pow2_bits_high by lia.
  - intros Heq. f_equal. apply table_of_ext. intros i Hi. f_equal.
    rewrite <- (Z.mod_pow2_bits_low n 8), <- (Z.mod_pow2_bits_low m 8) by lia.
    change (2 ^ 8)%Z with 256%Z. by rewrite Heq.
Qed.

Lemma get_rule_eq_iff_witness :
  get_rule 901 = get_rule 133 ↔ (901 mod 256 = 133 mod 256)%Z.
Proof. apply (get_rule_eq_iff 901 133); lia. Defined.
